(** * komari-theme-light: the dashboard's formatting, classification and
      aggregation code, embedded and verified

    The development follows the TypeScript sources:

    - [src/components/NodeCard.tsx]: [formatBytes], [formatSpeed],
      [formatUptime], [formatRegion], [isOnline], [cpuStatus], [ramStatus],
      [diskStatus] and the usage percentage shown beside the bars;
    - [src/App.tsx]: [getTotalNetworkStats] and its own copies of
      [formatSpeed] and [formatBytes];
    - [src/hooks/useTheme.tsx]: the theme restored from [localStorage].

    Representation of JavaScript values.

    - A string is the list of its UTF-16 code units, which is what
      [includes] and [replace] work on.
    - A telemetry number is a binary64 double ([float]): [/], [*], [+] and
      the comparisons are the IEEE operations of the kernel, so division by
      zero, NaN and the infinities behave as in the engine.
    - The formatters are modelled on whole numbers of bytes and seconds
      ([Z]; up to 2^53 each is a double).  On those every double operation
      of the source is exact (scaling by a power of 1024, [toFixed], [%])
      except [Math.log], which the model takes to be exact:
      [Math.floor(Math.log(b) / Math.log(k))] is the integer logarithm.
      Intermediate results are exact rationals or NaN ([num]).
    - The text of a double ([toFixed] of a usage percentage) is computed
      from the exact value of the double, by the rules of
      [Number.prototype.toFixed] and [Number::toString]. *)

From Stdlib Require Import ZArith NArith QArith Qround Qabs Qpower String Ascii Bool Lia.
From Stdlib Require Import DecimalString Floats List.
From Equations Require Import Equations.
Import ListNotations.

Local Open Scope Z_scope.

(** ** JavaScript strings *)

Module JS.

Definition codeUnit := N.
Definition jsstring := list codeUnit.

(** An ASCII literal as code units. *)
Definition str (s : string) : jsstring :=
  map N_of_ascii (list_ascii_of_string s).

Fixpoint jsstring_eqb (s t : jsstring) : bool :=
  match s, t with
  | [], [] => true
  | c :: s', d :: t' => N.eqb c d && jsstring_eqb s' t'
  | _, _ => false
  end.

(** [String.prototype.toLowerCase] on the ASCII letters.  Code units above
    127 are left as they are.  The full mapping gives an ASCII letter for
    two of them only: a "k" for U+212A, and for U+0130 an "i" with a
    combining dot after it; neither can be part of an occurrence of
    "taiwan", which is what the caller looks for in the lowered string. *)
Definition lowerUnit (c : codeUnit) : codeUnit :=
  if (65 <=? c)%N && (c <=? 90)%N then (c + 32)%N else c.

Definition toLowerCase (s : jsstring) : jsstring := map lowerUnit s.

(** The [Canonicalize] step of an [i]-flagged, non-unicode regular
    expression: a code unit is compared through its upper-case form, and a
    code unit above 127 never canonicalizes to an ASCII one. *)
Definition canonicalize (c : codeUnit) : codeUnit :=
  if (97 <=? c)%N && (c <=? 122)%N then (c - 32)%N else c.

Definition sameUnit (p c : codeUnit) : bool := N.eqb p c.
Definition sameUnit_i (p c : codeUnit) : bool :=
  N.eqb (canonicalize p) (canonicalize c).

Section Matching.
Variable eqc : codeUnit -> codeUnit -> bool.

(** Does the literal [pat] match at the start of [s]? *)
Fixpoint matchesAt (pat s : jsstring) : bool :=
  match pat with
  | [] => true
  | p :: pat' =>
      match s with
      | [] => false
      | c :: s' => eqc p c && matchesAt pat' s'
      end
  end.

(** Does [pat] match anywhere in [s]? *)
Fixpoint occurs (pat s : jsstring) : bool :=
  matchesAt pat s ||
  match s with
  | [] => false
  | _ :: s' => occurs pat s'
  end.

(** [s.replace(/pat/g, rep)] for a literal, non-empty pattern
    [p0 :: ps]: the string is scanned from the left; a match is replaced
    and the scan resumes after it, any other code unit is copied. *)
Equations? replace_g (p0 : codeUnit) (ps rep s : jsstring) : jsstring
  by wf (length s) lt :=
  replace_g p0 ps rep [] := [];
  replace_g p0 ps rep (c :: s') with matchesAt (p0 :: ps) (c :: s') := {
    | true := rep ++ replace_g p0 ps rep (skipn (length ps) s');
    | false := c :: replace_g p0 ps rep s' }.
Proof. all: try rewrite length_skipn; simpl; lia. Qed.
End Matching.

(** [s.includes(sub)] *)
Definition includes (s sub : jsstring) : bool := occurs sameUnit sub s.

(** Decimal digits of an integer, as [Number::toString] prints an integral
    value below 10^21. *)
Definition decimal (n : Z) : jsstring :=
  str (NilZero.string_of_int (Z.to_int n)).

(** String concatenation with a value that may be [undefined]. *)
Definition orUndefined (o : option jsstring) : jsstring :=
  match o with
  | Some s => s
  | None => str "undefined"
  end.

End JS.
Import JS.

(** ** Exact numbers of the formatters

    The value of a double that the formatters compute from a whole-number
    input: a rational, or NaN.  An exponent or array index is an integer or
    NaN ([option Z], [None] for NaN). *)

Module Exact.

Inductive num :=
| NaN
| Val (q : Q).

(** [Math.floor(Math.log(x) / Math.log(k))] for [k] a power of two,
    [Math.log] taken as exact.  The logarithm of a negative number is NaN;
    the callers return before taking the one of 0.

    The code divides two logarithms that are rounded to binary64, and
    rounds the quotient.  The floor is the one given here wherever the
    exact quotient is not within a few units in the last place below a
    whole number: for [k] = 1024 that is every [x] below 1024^4, and every
    [x] that is not a few units below a higher power of 1024.  Just below
    1024^5 (from 2^50 - 3 on) the rounded quotient is 5, one more than the
    floor given here.  What is proved of every input of a range is proved
    below 1024^4; above it the results are about inputs far from a power
    of 1024, or hold for either index. *)
Definition floorLogRatio (x k : Z) : option Z :=
  if 0 <? x then Some (Z.log2 x / Z.log2 k) else None.

(** [Math.pow(k, i)] *)
Definition Math_pow (k : Z) (i : option Z) : num :=
  match i with
  | Some z => Val (inject_Z k ^ z)
  | None => NaN
  end.

(** [x / y], for [y] NaN or not zero. *)
Definition divide (x : Z) (y : num) : num :=
  match y with
  | Val q => Val (inject_Z x / q)
  | NaN => NaN
  end.

(** [a[i]]: [undefined] unless [i] is an index of the array. *)
Definition element {A} (a : list A) (i : option Z) : option A :=
  match i with
  | Some z => if z <? 0 then None else nth_error a (Z.to_nat z)
  | None => None
  end.

Definition zeros (n : nat) : jsstring := repeat 48%N n.

(** The fixed notation of [toFixed] for [0 <= v]: the integer [n] nearest
    to [v * 10^f], the larger one of two, printed with [f] digits after the
    point. *)
Definition fixedNotation (v : Q) (f : nat) : jsstring :=
  let n := Qfloor (v * inject_Z (10 ^ Z.of_nat f) + (1 # 2)) in
  let m := decimal n in
  let m := zeros (S f - length m) ++ m in
  match f with
  | O => m
  | S _ => firstn (length m - f) m ++ str "." ++ skipn (length m - f) m
  end.

(** [x.toFixed(f)] below 10^21 in magnitude, which covers the callers (the
    scaled value is below 1024). *)
Definition toFixed (x : num) (f : nat) : jsstring :=
  match x with
  | NaN => str "NaN"
  | Val q => (if Qlt_le_dec q 0 then str "-" else []) ++ fixedNotation (Qabs q) f
  end.

Definition digitValue (c : codeUnit) : option Z :=
  if (48 <=? c)%N && (c <=? 57)%N then Some (Z.of_N c - 48) else None.

(** The longest run of decimal digits at the start of [s]: its value on
    top of [acc], the number of digits read after [count], and the rest. *)
Fixpoint readDigits (s : jsstring) (acc : Z) (count : nat) : Z * nat * jsstring :=
  match s with
  | [] => (acc, count, [])
  | c :: s' =>
      match digitValue c with
      | Some d => readDigits s' (10 * acc + d) (S count)
      | None => (acc, count, s)
      end
  end.

(** [parseFloat(s)] on the strings [toFixed] produces: an optional sign,
    digits, and an optional point with digits; NaN when there is no
    digit. *)
Definition parseFloat (s : jsstring) : num :=
  let '(negative, s1) :=
    match s with
    | 45%N :: r => (true, r)
    | _ => (false, s)
    end in
  let '(whole, nw, s2) := readDigits s1 0 0 in
  let '(all, n, _) :=
    match s2 with
    | 46%N :: r => readDigits r whole nw
    | _ => (whole, nw, s2)
    end in
  if (n =? 0)%nat then NaN
  else
    let q := (inject_Z all / inject_Z (10 ^ Z.of_nat (n - nw)))%Q in
    Val (if negative then - q else q)%Q.

(** The digits of a fraction [0 <= r < 1], until it is used up. *)
Fixpoint fractionDigits (fuel : nat) (r : Q) : jsstring :=
  match fuel with
  | O => []
  | S fuel' =>
      if Qeq_bool r 0 then []
      else
        let d := Qfloor (r * 10) in
        (48 + Z.to_N d)%N :: fractionDigits fuel' (r * 10 - inject_Z d)
  end.

(** [Number::toString] for a number with a short decimal expansion, as
    [parseFloat] of a [toFixed] string is: the expansion itself, which is
    the shortest decimal that reads back as the same double. *)
Definition numberToString (x : num) : jsstring :=
  match x with
  | NaN => str "NaN"
  | Val q =>
      let a := Qabs q in
      let whole := Qfloor a in
      let frac := fractionDigits 20 (a - inject_Z whole) in
      (if Qlt_le_dec q 0 then str "-" else []) ++ decimal whole ++
      match frac with
      | [] => []
      | _ => str "." ++ frac
      end
  end.

End Exact.
Import Exact.

(** ** Doubles as text

    [Number::toString] and [Number.prototype.toFixed] on a binary64 value,
    computed on the exact rational the double stands for. *)

Module Double.

(** The value of the finite double with mantissa [m] and exponent [e]. *)
Definition dyadic (m : positive) (e : Z) : Q := (inject_Z (Zpos m) * 2 ^ e)%Q.

(** The decimal exponent [n] of [0 < v]: [10^(n-1) <= v < 10^n].  For a
    double it lies between -323 and 309. *)
Fixpoint magnitudeFrom (fuel : nat) (n : Z) (v : Q) : Z :=
  match fuel with
  | O => n
  | S fuel' =>
      if Qlt_le_dec v (10 ^ n) then n else magnitudeFrom fuel' (n + 1) v
  end.

Definition magnitude (v : Q) : Z := magnitudeFrom 700 (-330) v.

(** The reals that round to the double [m * 2^e] lie between the midpoints
    to its two neighbours, the midpoints included when [m] is even. *)
Definition lowerMidpoint (m : positive) (e : Z) : Q :=
  if (Zpos m =? 2 ^ 52) && (-1074 <? e)
  then dyadic (4 * m - 1) (e - 2)
  else (inject_Z (2 * Zpos m - 1) * 2 ^ (e - 1))%Q.

Definition upperMidpoint (m : positive) (e : Z) : Q := dyadic (2 * m + 1) (e - 1).

Definition roundsTo (m : positive) (e : Z) (d : Q) : bool :=
  if Z.even (Zpos m)
  then Qle_bool (lowerMidpoint m e) d && Qle_bool d (upperMidpoint m e)
  else negb (Qle_bool d (lowerMidpoint m e)) && negb (Qle_bool (upperMidpoint m e) d).

(** The [k]-digit decimals [s * 10^(n-k)] around [v] that round to the
    double: the nearer one, the even one on a tie. *)
Definition digitsOfLength (m : positive) (e n : Z) (k : Z) : option Z :=
  let v := dyadic m e in
  let u := (10 ^ (n - k))%Q in
  let s1 := Qfloor (v / u) in
  let s2 := s1 + 1 in
  let d1 := (inject_Z s1 * u)%Q in
  let d2 := (inject_Z s2 * u)%Q in
  match roundsTo m e d1, roundsTo m e d2 with
  | true, true =>
      match (v - d1 ?= d2 - v)%Q with
      | Lt => Some s1
      | Gt => Some s2
      | Eq => Some (if Z.even s1 then s1 else s2)
      end
  | true, false => Some s1
  | false, true => Some s2
  | false, false => None
  end.

(** The shortest digit string: the least [k] with such a decimal.  There is
    one of 17 digits for every double, so the search from 1 ends within 17
    steps. *)
Fixpoint shortest (m : positive) (e n : Z) (fuel : nat) (k : Z) : Z * Z :=
  match fuel with
  | O => (Qfloor (dyadic m e / 10 ^ (n - k)), k)
  | S fuel' =>
      match digitsOfLength m e n k with
      | Some s => (s, k)
      | None => shortest m e n fuel' (k + 1)
      end
  end.

(** The layout of [Number::toString]: [digits] are the [k] digits of [s],
    the value is [s * 10^(n-k)]. *)
Definition layout (digits : jsstring) (n : Z) : jsstring :=
  let k := Z.of_nat (length digits) in
  if (k <=? n) && (n <=? 21) then digits ++ zeros (Z.to_nat (n - k))
  else if (0 <? n) && (n <=? 21)
  then firstn (Z.to_nat n) digits ++ str "." ++ skipn (Z.to_nat n) digits
  else if (-6 <? n) && (n <=? 0)
  then str "0." ++ zeros (Z.to_nat (- n)) ++ digits
  else
    let exponent :=
      str "e" ++ (if 0 <=? n - 1 then str "+" else str "-") ++ decimal (Z.abs (n - 1)) in
    match digits with
    | d :: ((_ :: _) as more) => d :: str "." ++ more ++ exponent
    | _ => digits ++ exponent
    end.

Definition positiveToString (m : positive) (e : Z) : jsstring :=
  let n := magnitude (dyadic m e) in
  let '(s, k) := shortest m e n 17 1 in
  if s =? 10 ^ k then layout (decimal (10 ^ (k - 1))) (n + 1)
  else layout (decimal s) n.

(** [Number::toString(x)] *)
Definition toString (x : float) : jsstring :=
  match Prim2SF x with
  | S754_nan => str "NaN"
  | S754_zero _ => str "0"
  | S754_infinity negative => (if negative then str "-" else []) ++ str "Infinity"
  | S754_finite negative m e =>
      (if negative then str "-" else []) ++ positiveToString m e
  end.

(** [x.toFixed(f)] *)
Definition toFixed (x : float) (f : nat) : jsstring :=
  match Prim2SF x with
  | S754_nan => str "NaN"
  | S754_zero _ => fixedNotation 0 f
  | S754_infinity negative => (if negative then str "-" else []) ++ str "Infinity"
  | S754_finite negative m e =>
      (if negative then str "-" else []) ++
      (if Qle_bool (10 ^ 21) (dyadic m e) then positiveToString m e
       else fixedNotation (dyadic m e) f)
  end.

End Double.

(** ** Node records (the interface [NodeData] of NodeCard.tsx)

    Only the fields the modelled code reads are kept.  [status] and [stats]
    are optional in the interface; [network] is tested for presence by the
    aggregator ([node.stats?.network]). *)

Module Node.

Record Usage := { total : float; used : float }.

Record Network := {
  up : float;
  down : float;
  totalUp : float;
  totalDown : float
}.

Record NodeStats := {
  cpu_usage : float;
  ram : Usage;
  swap : Usage;
  disk : Usage;
  network : option Network
}.

Inductive NodeStatus := online | offline.

Record NodeData := {
  uuid : jsstring;
  name : jsstring;
  region : jsstring;
  status : option NodeStatus;
  stats : option NodeStats
}.

End Node.
Import Node.

(** ** src/components/NodeCard.tsx *)

Module NodeCard.

Definition formatBytes (bytes : Z) : jsstring :=
  if bytes =? 0 then str "0 B"
  else
    let k := 1024 in
    let sizes := [str "B"; str "KB"; str "MB"; str "GB"; str "TB"] in
    let i := floorLogRatio bytes k in
    numberToString (parseFloat (Exact.toFixed (divide bytes (Math_pow k i)) 2))
      ++ str " " ++ orUndefined (element sizes i).

Definition formatSpeed (bytesPerSecond : Z) : jsstring :=
  if bytesPerSecond =? 0 then str "0 B/s"
  else
    let k := 1024 in
    let sizes := [str "B/s"; str "KB/s"; str "MB/s"; str "GB/s"] in
    let i := floorLogRatio bytesPerSecond k in
    numberToString (parseFloat (Exact.toFixed (divide bytesPerSecond (Math_pow k i)) 1))
      ++ str " " ++ orUndefined (element sizes i).

(** The units of [formatUptime]: U+5929 (days), U+5C0F U+65F6 (hours). *)
Definition daysUnit : jsstring := [0x5929%N].
Definition hoursUnit : jsstring := [0x5C0F%N; 0x65F6%N].

(** [Math.floor(a / b)] is [Z.div], [a % b] is [Z.rem] (the sign of the
    dividend). *)
Definition formatUptime (seconds : Z) : jsstring :=
  let days := seconds / 86400 in
  let hours := Z.rem seconds 86400 / 3600 in
  if 0 <? days
  then decimal days ++ daysUnit ++
       (if 0 <? hours then decimal hours ++ hoursUnit else [])
  else decimal hours ++ hoursUnit.

(** The regional indicator pairs T-W and U-N, and U+53F0 U+6E7E. *)
Definition flagTW : jsstring := [0xD83C%N; 0xDDF9%N; 0xD83C%N; 0xDDFC%N].
Definition flagUN : jsstring := [0xD83C%N; 0xDDFA%N; 0xD83C%N; 0xDDF3%N].
Definition localName : jsstring := [0x53F0%N; 0x6E7E%N].

Definition formatRegion (region : jsstring) : jsstring :=
  if includes region flagTW
     || includes (toLowerCase region) (str "taiwan")
     || includes region localName
  then
    replace_g sameUnit 0x53F0%N [0x6E7E%N] (str "Taiwan")
      (replace_g sameUnit_i 116%N (str "aiwan") (str "Taiwan")
         (replace_g sameUnit 0xD83C%N [0xDDF9%N; 0xD83C%N; 0xDDFC%N] flagUN region))
  else region.

Definition isOnline (node : NodeData) : bool :=
  match status node with
  | Some online => true
  | _ => false
  end.

Inductive Level := normal | warning | critical.

Local Open Scope float_scope.

Definition cpuStatus (stats : option NodeStats) : Level :=
  match stats with
  | None => normal
  | Some stats =>
      let usage := cpu_usage stats in
      if 80 <=? usage then critical
      else if 60 <=? usage then warning
      else normal
  end.

Definition ramStatus (stats : option NodeStats) : Level :=
  match stats with
  | None => normal
  | Some stats =>
      let usage := (used (ram stats) / total (ram stats)) * 100 in
      if 85 <=? usage then critical
      else if 70 <=? usage then warning
      else normal
  end.

Definition diskStatus (stats : option NodeStats) : Level :=
  match stats with
  | None => normal
  | Some stats =>
      let usage := (used (disk stats) / total (disk stats)) * 100 in
      if 90 <=? usage then critical
      else if 75 <=? usage then warning
      else normal
  end.

(** What the card shows. *)

(** [formatRegion(node.region)] *)
Definition regionLabel (node : NodeData) : jsstring := formatRegion (region node).

(** The badge: U+5728 U+7EBF (online) or U+79BB U+7EBF (offline). *)
Definition statusBadge (node : NodeData) : jsstring :=
  if isOnline node then [0x5728%N; 0x7EBF%N] else [0x79BB%N; 0x7EBF%N].

Definition borderClass (node : NodeData) : jsstring :=
  if isOnline node then str "border-l-green-500" else str "border-l-red-500".

(** The value of the two progress bars:
    [(stats.ram.used / stats.ram.total) * 100], and the same for the disk. *)
Definition ramUsage (stats : NodeStats) : float :=
  (used (ram stats) / total (ram stats)) * 100.

Definition diskUsage (stats : NodeStats) : float :=
  (used (disk stats) / total (disk stats)) * 100.

(** The percentage beside each bar:
    [((stats.ram.used / stats.ram.total) * 100).toFixed(1)] and the percent
    sign after it. *)
Definition ramPercent (stats : NodeStats) : jsstring :=
  Double.toFixed ((used (ram stats) / total (ram stats)) * 100) 1 ++ str "%".

Definition diskPercent (stats : NodeStats) : jsstring :=
  Double.toFixed ((used (disk stats) / total (disk stats)) * 100) 1 ++ str "%".

End NodeCard.

(** ** src/App.tsx *)

Module App.

Local Open Scope float_scope.

(** [x || 0]: 0 for the falsy numbers, which are NaN and the zeros. *)
Definition orZero (x : float) : float :=
  if is_nan x || (x =? 0) then 0 else x.

Record NetworkStats := {
  totalUp : float;
  totalDown : float;
  totalUpTraffic : float;
  totalDownTraffic : float
}.

(** The body of the [forEach] callback, on the four running totals. *)
Definition addNode (acc : NetworkStats) (node : NodeData) : NetworkStats :=
  match status node, stats node with
  | Some online, Some stats =>
      match network stats with
      | Some net =>
          {| totalUp := totalUp acc + orZero (Node.up net);
             totalDown := totalDown acc + orZero (Node.down net);
             totalUpTraffic := totalUpTraffic acc + orZero (Node.totalUp net);
             totalDownTraffic := totalDownTraffic acc + orZero (Node.totalDown net) |}
      | None => acc
      end
  | _, _ => acc
  end.

Definition getTotalNetworkStats (nodes : list NodeData) : NetworkStats :=
  fold_left addNode nodes
    {| totalUp := 0; totalDown := 0; totalUpTraffic := 0; totalDownTraffic := 0 |}.

Local Open Scope Z_scope.

Definition formatSpeed (bytesPerSecond : Z) : jsstring :=
  if bytesPerSecond =? 0 then str "0 B/s"
  else
    let k := 1024 in
    let sizes := [str "B/s"; str "KB/s"; str "MB/s"; str "GB/s"] in
    let i := floorLogRatio bytesPerSecond k in
    numberToString (parseFloat (Exact.toFixed (divide bytesPerSecond (Math_pow k i)) 1))
      ++ str " " ++ orUndefined (element sizes i).

Definition formatBytes (bytes : Z) : jsstring :=
  if bytes =? 0 then str "0 B"
  else
    let k := 1024 in
    let sizes := [str "B"; str "KB"; str "MB"; str "GB"; str "TB"] in
    let i := floorLogRatio bytes k in
    numberToString (parseFloat (Exact.toFixed (divide bytes (Math_pow k i)) 2))
      ++ str " " ++ orUndefined (element sizes i).

End App.

(** ** src/hooks/useTheme.tsx *)

Module UseTheme.

(** The type [Theme]. *)
Inductive Theme :=
| clean | sunrise | green_mountain | blue_water
| night | material_indigo | material_pink | material_teal.

Definition themeId (t : Theme) : jsstring :=
  match t with
  | clean => str "clean"
  | sunrise => str "sunrise"
  | green_mountain => str "green-mountain"
  | blue_water => str "blue-water"
  | night => str "night"
  | material_indigo => str "material-indigo"
  | material_pink => str "material-pink"
  | material_teal => str "material-teal"
  end.

(** [localStorage]: keys with their values, the latest first. *)
Definition Storage := list (jsstring * jsstring).

Fixpoint getItem (storage : Storage) (key : jsstring) : option jsstring :=
  match storage with
  | [] => None
  | (k, v) :: rest => if jsstring_eqb k key then Some v else getItem rest key
  end.

(** [a.includes(x)] on an array of strings. *)
Definition Array_includes (a : list jsstring) (x : jsstring) : bool :=
  existsb (jsstring_eqb x) a.

(** A string is truthy unless it is empty. *)
Definition truthy (s : jsstring) : bool :=
  match s with
  | [] => false
  | _ => true
  end.

(** [useState<Theme>('clean')] *)
Definition initialTheme : jsstring := str "clean".

(** The array the saved theme is looked up in. *)
Definition recognized : list jsstring :=
  [str "clean"; str "sunrise"; str "green-mountain"; str "blue-water";
   str "night"; str "material-indigo"; str "material-pink"; str "material-teal"].

(** The first effect of [ThemeProvider]: the theme after it has run. *)
Definition restoreTheme (storage : Storage) : jsstring :=
  match getItem storage (str "komari-theme") with
  | Some savedTheme =>
      if truthy savedTheme && Array_includes recognized savedTheme
      then savedTheme
      else initialTheme
  | None => initialTheme
  end.

End UseTheme.

(** ** Specification vocabulary *)

Module Spec.

Import NodeCard.

(** One of the three markers starts at the head of [s]: the flag, the name
    in any letter case, or the localized name. *)
Definition markerAt (s : jsstring) : bool :=
  matchesAt sameUnit flagTW s
  || matchesAt sameUnit_i (str "taiwan") s
  || matchesAt sameUnit localName s.

(** The test [formatRegion] starts with. *)
Definition hasMarker (region : jsstring) : bool :=
  includes region flagTW
  || includes (toLowerCase region) (str "taiwan")
  || includes region localName.

(** [Rewritten s t]: [t] is [s] read from the left with every marker
    replaced (the flag by the neutral flag, the name and the localized name
    by the label) and every other code unit copied. *)
Inductive Rewritten : jsstring -> jsstring -> Prop :=
| Rw_done : Rewritten [] []
| Rw_flag s t :
    Rewritten s t -> Rewritten (flagTW ++ s) (flagUN ++ t)
| Rw_name m s t :
    length m = 6%nat -> matchesAt sameUnit_i (str "taiwan") m = true ->
    Rewritten s t -> Rewritten (m ++ s) (str "Taiwan" ++ t)
| Rw_localName s t :
    Rewritten s t -> Rewritten (localName ++ s) (str "Taiwan" ++ t)
| Rw_other c s t :
    markerAt (c :: s) = false ->
    Rewritten s t -> Rewritten (c :: s) (c :: t).

(** The three replacements of [formatRegion], one after the other. *)
Definition rewriteFlag : jsstring -> jsstring :=
  replace_g sameUnit 0xD83C%N [0xDDF9%N; 0xD83C%N; 0xDDFC%N] flagUN.
Definition rewriteName : jsstring -> jsstring :=
  replace_g sameUnit_i 116%N (str "aiwan") (str "Taiwan").
Definition rewriteLocalName : jsstring -> jsstring :=
  replace_g sameUnit 0x53F0%N [0x6E7E%N] (str "Taiwan").
Definition rewriteAll (s : jsstring) : jsstring :=
  rewriteLocalName (rewriteName (rewriteFlag s)).

(** The unit tables of [formatBytes] and [formatSpeed]. *)
Definition byteUnits : list jsstring :=
  [str "B"; str "KB"; str "MB"; str "GB"; str "TB"].
Definition rateUnits : list jsstring :=
  [str "B/s"; str "KB/s"; str "MB/s"; str "GB/s"].

(** The network counters that enter the fleet totals: those of the records
    that are online and carry network statistics, in the order of the
    records. *)
Definition onlineNetwork (node : NodeData) : option Network :=
  match status node, stats node with
  | Some online, Some stats => network stats
  | _, _ => None
  end.

Fixpoint onlineNetworks (nodes : list NodeData) : list Network :=
  match nodes with
  | [] => []
  | node :: rest =>
      match onlineNetwork node with
      | Some net => net :: onlineNetworks rest
      | None => onlineNetworks rest
      end
  end.

(** One more term of each of the four sums. *)
Definition addNetwork (acc : App.NetworkStats) (net : Network) : App.NetworkStats :=
  {| App.totalUp := App.totalUp acc + App.orZero (Node.up net);
     App.totalDown := App.totalDown acc + App.orZero (Node.down net);
     App.totalUpTraffic := App.totalUpTraffic acc + App.orZero (Node.totalUp net);
     App.totalDownTraffic :=
       App.totalDownTraffic acc + App.orZero (Node.totalDown net) |}%float.

Definition noTraffic : App.NetworkStats :=
  {| App.totalUp := 0; App.totalDown := 0;
     App.totalUpTraffic := 0; App.totalDownTraffic := 0 |}%float.

(** The sum of one counter over the counters [nets], as the loop adds it
    up: from 0, a falsy counter counting as 0. *)
Definition sumOf (counter : Network -> float) (nets : list Network) : float :=
  fold_left (fun acc net => acc + App.orZero (counter net))%float nets 0%float.

(** The record with another [status]. *)
Definition withStatus (st : option NodeStatus) (node : NodeData) : NodeData :=
  {| uuid := uuid node; name := name node; region := Node.region node;
     status := st; stats := stats node |}.

(** Sample telemetry: a processor usage, and used and total bytes of memory
    and disk. *)
Definition sampleStats (cpu ramUsed ramTotal diskUsed diskTotal : float) : NodeStats :=
  {| cpu_usage := cpu;
     ram := {| total := ramTotal; used := ramUsed |};
     swap := {| total := 0; used := 0 |};
     disk := {| total := diskTotal; used := diskUsed |};
     network := None |}%float.

(** Sample telemetry with the network counters [net]. *)
Definition statsWithNetwork (net : Network) : NodeStats :=
  {| cpu_usage := 0;
     ram := {| total := 0; used := 0 |};
     swap := {| total := 0; used := 0 |};
     disk := {| total := 0; used := 0 |};
     network := Some net |}%float.

(** A sample record named [id]. *)
Definition sampleNode (id : string) (st : option NodeStatus) (s : option NodeStats)
  : NodeData :=
  {| uuid := str id; name := str id; region := []; status := st; stats := s |}.

End Spec.
Import Spec.

From Stdlib Require Import Lqa DecimalPos.

(** ** More of JavaScript strings: [trim] and [split] *)

Module JSText.

(** White space and line terminators, which [trim] removes. *)
Definition isWhiteSpace (c : codeUnit) : bool :=
  existsb (N.eqb c)
    [9%N; 10%N; 11%N; 12%N; 13%N; 32%N; 0xA0%N; 0x1680%N; 0x2028%N; 0x2029%N;
     0x202F%N; 0x205F%N; 0x3000%N; 0xFEFF%N]
  || ((0x2000 <=? c)%N && (c <=? 0x200A)%N).

Fixpoint trimStart (s : jsstring) : jsstring :=
  match s with
  | [] => []
  | c :: s' => if isWhiteSpace c then trimStart s' else s
  end.

Definition trimEnd (s : jsstring) : jsstring := rev (trimStart (rev s)).

(** [s.trim()] *)
Definition trim (s : jsstring) : jsstring := trimEnd (trimStart s).

(** [s.split(/[...]/)] for a class [sep] of single code units: the pieces
    between the separators, empty pieces included; one empty piece for the
    empty string. *)
Fixpoint split (sep : codeUnit -> bool) (s : jsstring) : list jsstring :=
  match s with
  | [] => [[]]
  | c :: s' =>
      if sep c then [] :: split sep s'
      else
        match split sep s' with
        | piece :: pieces => (c :: piece) :: pieces
        | [] => [[c]]
        end
  end.

End JSText.
Import JSText.

(** ** More of src/components/NodeCard.tsx: tags and traffic totals *)

Module NodeCardView.

(** The class [[,;]]. *)
Definition isSeparator (c : codeUnit) : bool := N.eqb c 44 || N.eqb c 59.

(** [tagList], from [node.tags]. *)
Definition tagList (tags : jsstring) : list jsstring :=
  if negb (UseTheme.truthy tags) then []
  else filter (fun tag => UseTheme.truthy tag) (map trim (split isSeparator tags)).

(** The tag badges: nothing for an empty list; else [tag.trim()] for the
    tags of [tagList.slice(0, 2)] and, with more than two tags, one badge
    with a plus sign and [tagList.length - 2]. *)
Definition tagBadges (tagList : list jsstring)
  : option (list jsstring * option jsstring) :=
  if (0 <? length tagList)%nat
  then Some (map trim (firstn 2 tagList),
             if (2 <? length tagList)%nat
             then Some (str "+" ++ decimal (Z.of_nat (length tagList) - 2))
             else None)
  else None.

(** The cells of the traffic totals:
    [stats.network.totalUp ? formatBytes(stats.network.totalUp) : 'N/A']
    on a total that is a whole number of bytes or NaN ([None], as for an
    index): 0 and NaN are the falsy numbers. *)
Definition trafficCell (total : option Z) : jsstring :=
  match total with
  | Some bytes => if bytes =? 0 then str "N/A" else NodeCard.formatBytes bytes
  | None => str "N/A"
  end.

End NodeCardView.

(** ** More of src/hooks/useTheme.tsx: the effect that applies a theme *)

Module ThemeEffect.

Import UseTheme.

(** [document.documentElement], as far as the effect touches it.
    [classList] is the class attribute, as the ordered set of its tokens
    (whether an empty class attribute is present is not recorded);
    [attributes] are the other attributes, each under the name it is
    stored with, which names one attribute only. *)
Record Root := {
  attributes : list (jsstring * jsstring);
  classList : list jsstring
}.

(** What the theme lives in: the root element and [localStorage]. *)
Record Page := {
  root : Root;
  localStorage : Storage
}.

(** [setItem] and [setAttribute]: the value of an existing key is replaced
    where it stands, a new key goes to the end. *)
Fixpoint assign (entries : list (jsstring * jsstring)) (key value : jsstring)
  : list (jsstring * jsstring) :=
  match entries with
  | [] => [(key, value)]
  | (k, v) :: rest =>
      if jsstring_eqb k key then (k, value) :: rest
      else (k, v) :: assign rest key value
  end.

Definition unassign (entries : list (jsstring * jsstring)) (key : jsstring)
  : list (jsstring * jsstring) :=
  filter (fun entry => negb (jsstring_eqb (fst entry) key)) entries.

(** [removeAttribute(name)] and [setAttribute(name, value)], for a name
    in lower case, as the literal is that the effect passes (in an HTML
    document both methods lower-case the name they are given). *)
Definition removeAttribute (name : jsstring) (r : Root) : Root :=
  {| attributes := unassign (attributes r) name; classList := classList r |}.

Definition setAttribute (name value : jsstring) (r : Root) : Root :=
  {| attributes := assign (attributes r) name value; classList := classList r |}.

Definition classList_remove (token : jsstring) (r : Root) : Root :=
  {| attributes := attributes r;
     classList := filter (fun t => negb (jsstring_eqb t token)) (classList r) |}.

Definition classList_add (token : jsstring) (r : Root) : Root :=
  {| attributes := attributes r;
     classList :=
       if existsb (jsstring_eqb token) (classList r) then classList r
       else classList r ++ [token] |}.

Definition setItem (storage : Storage) (key value : jsstring) : Storage :=
  assign storage key value.

(** The second effect of [ThemeProvider], run with [theme]. *)
Definition applyTheme (theme : jsstring) (page : Page) : Page :=
  let root := removeAttribute (str "data-theme") (root page) in
  let root := classList_remove (str "dark") root in
  let root :=
    if jsstring_eqb theme (str "clean") then root
    else if jsstring_eqb theme (str "night") then classList_add (str "dark") root
    else setAttribute (str "data-theme") theme root in
  {| root := root;
     localStorage := setItem (localStorage page) (str "komari-theme") theme |}.

(** Mounting [ThemeProvider]: both effects run once, in their order, with
    the initial theme; when the first one has set another theme the
    component renders again and the second effect, which depends on the
    theme, runs again with it.  The result is the theme and the page. *)
Definition mount (page : Page) : jsstring * Page :=
  let theme := initialTheme in
  let restored := restoreTheme (localStorage page) in
  let page := applyTheme theme page in
  if jsstring_eqb restored theme then (theme, page)
  else (restored, applyTheme restored page).

End ThemeEffect.

(** ** src/components/ThemeSwitcher.tsx *)

Module ThemeSwitcher.

Import ThemeEffect.

(** [themes]: the identifier and the name of each entry. *)
Definition themes : list (jsstring * jsstring) :=
  [(str "clean", [0x7B80%N; 0x6D01%N]);
   (str "sunrise", [0x65E5%N; 0x51FA%N]);
   (str "green-mountain", [0x9752%N; 0x5C71%N]);
   (str "blue-water", [0x7EFF%N; 0x6C34%N]);
   (str "night", [0x591C%N; 0x665A%N]);
   (str "material-indigo", str "Material Indigo");
   (str "material-pink", str "Material Pink");
   (str "material-teal", str "Material Teal")].


End ThemeSwitcher.

(** ** Specification vocabulary, continued *)

Module Spec2.

Import NodeCardView.

(** [pieces.join(",")] *)
Fixpoint joinComma (pieces : list jsstring) : jsstring :=
  match pieces with
  | [] => []
  | [piece] => piece
  | piece :: rest => piece ++ 44%N :: joinComma rest
  end.

(** A tag as [tagList] gives them: not empty, without separator, and with
    no white space at either end. *)
Definition cleanTag (tag : jsstring) : Prop :=
  tag <> [] /\
  Forall (fun c => isSeparator c = false) tag /\
  (forall c rest, tag = c :: rest -> isWhiteSpace c = false) /\
  (forall c front, tag = front ++ [c] -> isWhiteSpace c = false).

(** The value of the attribute stored under [name], among the attributes
    other than class. *)
Definition attributeNamed (r : ThemeEffect.Root) (name : jsstring)
  : option jsstring :=
  UseTheme.getItem (ThemeEffect.attributes r) name.

(** The levels in their order. *)
Definition rank (l : NodeCard.Level) : nat :=
  match l with
  | NodeCard.normal => 0
  | NodeCard.warning => 1
  | NodeCard.critical => 2
  end.

(** The whole numbers from [lo] on, [count] of them. *)
Definition wholeNumbers (lo : Z) (count : nat) : list Z :=
  map (fun k => lo + Z.of_nat k) (seq 0 count).

(** The text of [toFixed] when the nearest integer to [x * 10^f] is [n]. *)
Definition fixedOf (n : Z) (f : nat) : jsstring :=
  let m := decimal n in
  let m := zeros (S f - length m) ++ m in
  match f with
  | O => m
  | S _ => firstn (length m - f) m ++ str "." ++ skipn (length m - f) m
  end.

(** A run of decimal digits and the number it spells after [acc]. *)
Definition isDigit (c : codeUnit) : bool := (48 <=? c)%N && (c <=? 57)%N.

Fixpoint digitsValue (ds : jsstring) (acc : Z) : Z :=
  match ds with
  | [] => acc
  | c :: ds' => digitsValue ds' (10 * acc + (Z.of_N c - 48))
  end.

End Spec2.
Import Spec2.

(** * Theorems *)

Import NodeCard.

(** ** Strings *)

Lemma jsstring_eqb_eq (s t : jsstring) : jsstring_eqb s t = true <-> s = t.
Proof.
  revert t; induction s as [|c s IH]; intros [|d t]; simpl; split; intros H;
    try reflexivity; try discriminate.
  - apply andb_true_iff in H as [H1 H2]. apply N.eqb_eq in H1. apply IH in H2.
    now subst.
  - inversion H; subst. rewrite N.eqb_refl. simpl. now apply IH.
Qed.

Section MatchFacts.
Variable eqc : codeUnit -> codeUnit -> bool.

(** A match covers the first [length pat] code units and does not look
    further. *)
Lemma matchesAt_split (pat s : jsstring) :
  matchesAt eqc pat s = true ->
  exists m rest, s = m ++ rest /\ length m = length pat /\
                 matchesAt eqc pat m = true.
Proof.
  revert s; induction pat as [|p pat IH]; intros s H.
  - exists [], s. now repeat split.
  - destruct s as [|c s]; [discriminate|]. simpl in H.
    apply andb_true_iff in H as [Hc H].
    destruct (IH _ H) as (m & rest & -> & Hlen & Hm).
    exists (c :: m), rest. simpl. rewrite Hc, Hm, Hlen. now repeat split.
Qed.

Lemma matchesAt_app (pat m rest : jsstring) :
  length m = length pat ->
  matchesAt eqc pat (m ++ rest) = matchesAt eqc pat m.
Proof.
  revert m; induction pat as [|p pat IH]; intros [|c m] Hlen;
    simpl in *; try discriminate; try reflexivity.
  now rewrite IH by lia.
Qed.

Lemma matchesAt_cons (p : codeUnit) (pat : jsstring) (c : codeUnit) (s : jsstring) :
  matchesAt eqc (p :: pat) (c :: s) = eqc p c && matchesAt eqc pat s.
Proof. reflexivity. Qed.

Lemma occurs_cons (pat : jsstring) (c : codeUnit) (s : jsstring) :
  occurs eqc pat (c :: s) = matchesAt eqc pat (c :: s) || occurs eqc pat s.
Proof. reflexivity. Qed.

Lemma occurs_false_cons (pat : jsstring) (c : codeUnit) (s : jsstring) :
  occurs eqc pat (c :: s) = false ->
  matchesAt eqc pat (c :: s) = false /\ occurs eqc pat s = false.
Proof.
  intros H. change (matchesAt eqc pat (c :: s) || occurs eqc pat s = false) in H.
  now apply orb_false_iff in H.
Qed.
End MatchFacts.

Section ReplaceFacts.
Variable eqc : codeUnit -> codeUnit -> bool.
Variables (p0 : codeUnit) (ps rep : jsstring).

Let R := replace_g eqc p0 ps rep.

Lemma replace_g_nil : R [] = [].
Proof. unfold R. now simp replace_g. Qed.

Lemma replace_g_cons (c : codeUnit) (s : jsstring) :
  R (c :: s) =
  if matchesAt eqc (p0 :: ps) (c :: s)
  then rep ++ R (skipn (length ps) s)
  else c :: R s.
Proof.
  unfold R. simp replace_g.
  destruct (matchesAt eqc (p0 :: ps) (c :: s)); reflexivity.
Qed.

(** Code units that cannot start a match are copied. *)
Lemma replace_g_keep (m rest : jsstring) :
  Forall (fun c => eqc p0 c = false) m -> R (m ++ rest) = m ++ R rest.
Proof.
  induction 1 as [|c m Hc _ IH]; [reflexivity|].
  simpl. rewrite replace_g_cons. simpl. rewrite Hc. simpl. now rewrite IH.
Qed.

(** A match at the head is replaced, and the scan goes on after it. *)
Lemma replace_g_match (m rest : jsstring) :
  length m = S (length ps) ->
  matchesAt eqc (p0 :: ps) m = true ->
  R (m ++ rest) = rep ++ R rest.
Proof.
  intros Hlen Hm. destruct m as [|c m]; [discriminate|].
  simpl app. rewrite replace_g_cons.
  change (c :: m ++ rest) with ((c :: m) ++ rest).
  rewrite matchesAt_app, Hm by exact Hlen.
  simpl in Hlen. injection Hlen as Hlen.
  rewrite <- Hlen, skipn_app, skipn_all, Nat.sub_diag. reflexivity.
Qed.

(** A pattern whose code units match neither the head of the replacement
    nor a code unit that starts a match sees the same thing before and
    after the replacement. *)
Lemma matchesAt_replace_g
      (eq2 : codeUnit -> codeUnit -> bool) (r0 : codeUnit) (rs : jsstring) :
  rep = r0 :: rs ->
  forall q : jsstring,
    Forall (fun a => eq2 a r0 = false /\
                     forall c, eqc p0 c = true -> eq2 a c = false) q ->
    forall x, matchesAt eq2 q (R x) = matchesAt eq2 q x.
Proof.
  intros Hrep q Hq. induction Hq as [|a q [Ha1 Ha2] _ IH]; intros x.
  - reflexivity.
  - destruct x as [|c x].
    + now rewrite replace_g_nil.
    + rewrite replace_g_cons.
      destruct (matchesAt eqc (p0 :: ps) (c :: x)) eqn:Hm.
      * rewrite Hrep. simpl. rewrite Ha1. simpl in Hm.
        apply andb_true_iff in Hm as [Hc _]. now rewrite (Ha2 _ Hc).
      * simpl. now rewrite IH.
Qed.
End ReplaceFacts.

(** ** formatRegion *)

(** An exact match is the pattern itself. *)
Lemma matchesAt_sameUnit (pat m : jsstring) :
  length m = length pat -> matchesAt sameUnit pat m = true -> m = pat.
Proof.
  revert m; induction pat as [|p pat IH]; intros [|c m] Hlen H;
    simpl in Hlen; try discriminate; try reflexivity.
  rewrite matchesAt_cons in H. apply andb_true_iff in H as [Hc H].
  apply N.eqb_eq in Hc. subst. f_equal. apply IH; [lia|assumption].
Qed.

(** A code unit that matches a letter of the name, in either case, is that
    letter in one of its two cases. *)
Lemma sameUnit_i_letter (p c : codeUnit) :
  (97 <= p <= 122)%N -> sameUnit_i p c = true -> c = p \/ c = (p - 32)%N.
Proof.
  unfold sameUnit_i, canonicalize. intros Hp H.
  destruct ((97 <=? p)%N && (p <=? 122)%N) eqn:E1.
  - destruct ((97 <=? c)%N && (c <=? 122)%N) eqn:E2; apply N.eqb_eq in H.
    + apply andb_true_iff in E2 as [E2 _]. apply N.leb_le in E2. lia.
    + lia.
  - apply andb_false_iff in E1 as [E1|E1]; apply N.leb_gt in E1; lia.
Qed.

(** Looking for a lower-case pattern in the lowered string is looking for it
    in the string without regard to case. *)
Lemma matchesAt_lowered (pat s : jsstring) :
  Forall (fun p => (97 <= p <= 122)%N) pat ->
  matchesAt sameUnit pat (toLowerCase s) = matchesAt sameUnit_i pat s.
Proof.
  intros Hpat; revert s; induction Hpat as [|p pat Hp _ IH]; intros s.
  - reflexivity.
  - destruct s as [|c s]; [reflexivity|]. simpl. rewrite IH. f_equal.
    unfold sameUnit, sameUnit_i, lowerUnit, canonicalize.
    replace ((97 <=? p)%N && (p <=? 122)%N) with true
      by (symmetry; apply andb_true_iff; split; apply N.leb_le; lia).
    destruct ((65 <=? c)%N && (c <=? 90)%N) eqn:E1;
      destruct ((97 <=? c)%N && (c <=? 122)%N) eqn:E2;
      repeat match goal with
        | H : (_ && _) = true |- _ => apply andb_true_iff in H as [? ?]
        | H : (_ && _) = false |- _ => apply andb_false_iff in H as [?|?]
        | H : (_ <=? _)%N = true |- _ => apply N.leb_le in H
        | H : (_ <=? _)%N = false |- _ => apply N.leb_gt in H
        end;
      try lia;
      (destruct (N.eqb_spec p (c + 32)) as [E|E];
       destruct (N.eqb_spec (p - 32) c) as [E'|E']; try reflexivity; lia)
      || (destruct (N.eqb_spec p c) as [E|E];
          destruct (N.eqb_spec (p - 32) (c - 32)) as [E'|E']; try reflexivity; lia)
      || (destruct (N.eqb_spec p c) as [E|E];
          destruct (N.eqb_spec (p - 32) c) as [E'|E']; try reflexivity; lia).
Qed.

Lemma occurs_lowered (pat s : jsstring) :
  Forall (fun p => (97 <= p <= 122)%N) pat ->
  occurs sameUnit pat (toLowerCase s) = occurs sameUnit_i pat s.
Proof.
  intros Hpat. induction s as [|c s IH].
  - change (matchesAt sameUnit pat (toLowerCase []) || false
            = matchesAt sameUnit_i pat [] || false).
    now rewrite (matchesAt_lowered pat [] Hpat).
  - change (toLowerCase (c :: s)) with (lowerUnit c :: toLowerCase s).
    change (occurs sameUnit pat (lowerUnit c :: toLowerCase s))
      with (matchesAt sameUnit pat (toLowerCase (c :: s))
            || occurs sameUnit pat (toLowerCase s)).
    rewrite IH, (matchesAt_lowered pat (c :: s) Hpat). reflexivity.
Qed.

Lemma name_is_lower : Forall (fun p => (97 <= p <= 122)%N) (str "taiwan").
Proof. repeat constructor; simpl; lia. Qed.

(** The markers of a string without markers: none at any position. *)
Lemma hasMarker_false_cons (c : codeUnit) (s : jsstring) :
  hasMarker (c :: s) = false -> markerAt (c :: s) = false /\ hasMarker s = false.
Proof.
  unfold hasMarker, markerAt, includes. rewrite !(occurs_lowered _ _ name_is_lower).
  intros H. apply orb_false_iff in H as [H H3]. apply orb_false_iff in H as [H1 H2].
  apply occurs_false_cons in H1 as [-> ->], H2 as [-> ->], H3 as [-> ->].
  split; reflexivity.
Qed.

Lemma Rewritten_unmarked (s : jsstring) : hasMarker s = false -> Rewritten s s.
Proof.
  induction s as [|c s IH]; intros H.
  - constructor.
  - apply hasMarker_false_cons in H as [H1 H2]. apply Rw_other; auto.
Qed.

(** The three passes on each kind of head. *)

Lemma rewriteAll_flag (rest : jsstring) :
  rewriteAll (flagTW ++ rest) = flagUN ++ rewriteAll rest.
Proof.
  unfold rewriteAll, rewriteFlag, rewriteName, rewriteLocalName.
  rewrite (replace_g_match sameUnit _ _ _ flagTW) by reflexivity.
  rewrite (replace_g_keep sameUnit_i) by (repeat constructor).
  rewrite (replace_g_keep sameUnit) by (repeat constructor).
  reflexivity.
Qed.

Lemma rewriteAll_localName (rest : jsstring) :
  rewriteAll (localName ++ rest) = str "Taiwan" ++ rewriteAll rest.
Proof.
  unfold rewriteAll, rewriteFlag, rewriteName, rewriteLocalName.
  rewrite (replace_g_keep sameUnit _ _ _ localName) by (repeat constructor).
  rewrite (replace_g_keep sameUnit_i _ _ _ localName) by (repeat constructor).
  rewrite (replace_g_match sameUnit _ _ _ localName) by reflexivity.
  reflexivity.
Qed.

Lemma name_letters (m : jsstring) :
  length m = 6%nat -> matchesAt sameUnit_i (str "taiwan") m = true ->
  Forall (fun c => (c < 128)%N) m.
Proof.
  intros Hlen Hm.
  do 7 (try destruct m as [|? m]); try discriminate.
  simpl in Hm.
  repeat match goal with
    | H : (_ && _) = true |- _ => apply andb_true_iff in H as [? ?]
    end.
  repeat match goal with
    | H : sameUnit_i _ _ = true |- _ =>
        apply sameUnit_i_letter in H; [|simpl; lia]
    end.
  repeat (apply Forall_cons; [lia|]). apply Forall_nil.
Qed.

Lemma rewriteAll_name (m rest : jsstring) :
  length m = 6%nat -> matchesAt sameUnit_i (str "taiwan") m = true ->
  rewriteAll (m ++ rest) = str "Taiwan" ++ rewriteAll rest.
Proof.
  intros Hlen Hm.
  unfold rewriteAll, rewriteFlag, rewriteName, rewriteLocalName.
  rewrite (replace_g_keep sameUnit).
  - rewrite (replace_g_match sameUnit_i _ _ _ m) by assumption.
    rewrite (replace_g_keep sameUnit) by (repeat constructor).
    reflexivity.
  - eapply Forall_impl; [|apply (name_letters m Hlen Hm)].
    intros c Hc. cbv beta in Hc. unfold sameUnit. apply N.eqb_neq. lia.
Qed.

Ltac take_else H :=
  match goal with
  | |- context [if ?b then _ else _] =>
      replace b with false by (symmetry; exact H)
  end.

Lemma rewriteAll_other (c : codeUnit) (s : jsstring) :
  markerAt (c :: s) = false -> rewriteAll (c :: s) = c :: rewriteAll s.
Proof.
  unfold markerAt. intros H.
  apply orb_false_iff in H as [H H3]. apply orb_false_iff in H as [H1 H2].
  unfold rewriteAll, rewriteFlag, rewriteName, rewriteLocalName.
  rewrite (replace_g_cons sameUnit 0xD83C%N). take_else H1.
  rewrite (replace_g_cons sameUnit_i), matchesAt_cons.
  rewrite (matchesAt_replace_g sameUnit _ _ flagUN sameUnit_i 0xD83C%N
             [0xDDFA%N; 0xD83C%N; 0xDDF3%N] eq_refl (str "aiwan")).
  2:{ repeat constructor; intros c' Hc'; apply N.eqb_eq in Hc'; now subst. }
  take_else H2.
  rewrite (replace_g_cons sameUnit 0x53F0%N), matchesAt_cons.
  rewrite (matchesAt_replace_g sameUnit_i _ _ (str "Taiwan") sameUnit 84%N
             (str "aiwan") eq_refl [0x6E7E%N]).
  2:{ repeat constructor. intros c' Hc'.
      apply sameUnit_i_letter in Hc'; [|lia].
      unfold sameUnit. apply N.eqb_neq. lia. }
  rewrite (matchesAt_replace_g sameUnit _ _ flagUN sameUnit 0xD83C%N
             [0xDDFA%N; 0xD83C%N; 0xDDF3%N] eq_refl [0x6E7E%N]).
  2:{ repeat constructor; intros c' Hc'; apply N.eqb_eq in Hc'; now subst. }
  take_else H3.
  reflexivity.
Qed.

Lemma Rewritten_rewriteAll (s : jsstring) : Rewritten s (rewriteAll s).
Proof.
  remember (length s) as n eqn:Hn. revert s Hn.
  induction n as [n IH] using lt_wf_ind. intros s Hn.
  destruct s as [|c s]; [constructor|].
  destruct (matchesAt sameUnit flagTW (c :: s)) eqn:H1.
  { apply matchesAt_split in H1 as (m & rest & E & Hlen & Hm).
    apply matchesAt_sameUnit in Hm; [subst m|assumption].
    rewrite E, rewriteAll_flag. apply Rw_flag.
    eapply IH; [|reflexivity]. subst n. rewrite E, length_app. simpl. lia. }
  destruct (matchesAt sameUnit_i (str "taiwan") (c :: s)) eqn:H2.
  { apply matchesAt_split in H2 as (m & rest & E & Hlen & Hm).
    rewrite E, rewriteAll_name by assumption. apply Rw_name; try assumption.
    eapply IH; [|reflexivity]. subst n. rewrite E, length_app, Hlen. simpl. lia. }
  destruct (matchesAt sameUnit localName (c :: s)) eqn:H3.
  { apply matchesAt_split in H3 as (m & rest & E & Hlen & Hm).
    apply matchesAt_sameUnit in Hm; [subst m|assumption].
    rewrite E, rewriteAll_localName. apply Rw_localName.
    eapply IH; [|reflexivity]. subst n. rewrite E, length_app. simpl. lia. }
  assert (markerAt (c :: s) = false) as Hm
    by (unfold markerAt; now rewrite H1, H2, H3).
  rewrite rewriteAll_other by assumption. apply Rw_other; [assumption|].
  eapply IH; [|reflexivity]. subst n. simpl. lia.
Qed.

(** The rewritten label holds neither the flag nor the localized name. *)

Lemma Rewritten_copied (x : codeUnit) (s t : jsstring) :
  Rewritten s (x :: t) -> x <> 0xD83C%N -> x <> 84%N ->
  exists s', s = x :: s' /\ markerAt (x :: s') = false /\ Rewritten s' t.
Proof.
  intros H Hx1 Hx2. remember (x :: t) as u eqn:E.
  destruct H as [|s0 t0 H0|m s0 t0 Hl Hm H0|s0 t0 H0|c s0 t0 Hc H0];
    vm_compute in E; try discriminate E; injection E; intros; subst.
  - now destruct Hx1.
  - now destruct Hx2.
  - now destruct Hx2.
  - now exists s0.
Qed.

Lemma Rewritten_flag_head (s t : jsstring) :
  Rewritten s (0xD83C%N :: t) ->
  (exists t0, t = 0xDDFA%N :: 0xD83C%N :: 0xDDF3%N :: t0)
  \/ (exists s', s = 0xD83C%N :: s' /\ Rewritten s' t).
Proof.
  intros H. remember (0xD83C%N :: t) as u eqn:E.
  destruct H as [|s0 t0 H0|m s0 t0 Hl Hm H0|s0 t0 H0|c s0 t0 Hc H0];
    vm_compute in E; try discriminate E; injection E; intros; subst.
  - left. now exists t0.
  - right. now exists s0.
Qed.

Lemma no_flag_at_head (c : codeUnit) (s t : jsstring) :
  Rewritten s t ->
  matchesAt sameUnit flagTW (c :: s) = false ->
  matchesAt sameUnit flagTW (c :: t) = false.
Proof.
  intros H Hs.
  destruct (matchesAt sameUnit flagTW (c :: t)) eqn:Ht; [exfalso|reflexivity].
  apply matchesAt_split in Ht as (m & rest & E & Hlen & Hm).
  apply matchesAt_sameUnit in Hm; [subst m|assumption].
  injection E as -> ->.
  apply Rewritten_copied in H as (s1 & -> & _ & H); [|discriminate..].
  apply Rewritten_flag_head in H as [[t0 E]|(s2 & -> & H)]; [discriminate E|].
  apply Rewritten_copied in H as (s3 & -> & _ & H); [|discriminate..].
  discriminate Hs.
Qed.

Lemma no_localName_at_head (c : codeUnit) (s t : jsstring) :
  Rewritten s t ->
  matchesAt sameUnit localName (c :: s) = false ->
  matchesAt sameUnit localName (c :: t) = false.
Proof.
  intros H Hs.
  destruct (matchesAt sameUnit localName (c :: t)) eqn:Ht; [exfalso|reflexivity].
  apply matchesAt_split in Ht as (m & rest & E & Hlen & Hm).
  apply matchesAt_sameUnit in Hm; [subst m|assumption].
  injection E as -> ->.
  apply Rewritten_copied in H as (s1 & -> & _ & H); [|discriminate..].
  discriminate Hs.
Qed.

Lemma Rewritten_no_flag (s t : jsstring) :
  Rewritten s t -> includes t flagTW = false.
Proof.
  unfold includes. induction 1 as [|s t _ IH|m s t _ _ _ IH|s t _ IH|c s t Hc H IH].
  - reflexivity.
  - change (flagUN ++ t) with (0xD83C%N :: 0xDDFA%N :: 0xD83C%N :: 0xDDF3%N :: t).
    rewrite !occurs_cons, IH. reflexivity.
  - change (str "Taiwan" ++ t)
      with (84%N :: 97%N :: 105%N :: 119%N :: 97%N :: 110%N :: t).
    rewrite !occurs_cons, IH. reflexivity.
  - change (str "Taiwan" ++ t)
      with (84%N :: 97%N :: 105%N :: 119%N :: 97%N :: 110%N :: t).
    rewrite !occurs_cons, IH. reflexivity.
  - rewrite occurs_cons, IH, orb_false_r.
    apply (no_flag_at_head c s t H).
    unfold markerAt in Hc. apply orb_false_iff in Hc as [Hc _].
    now apply orb_false_iff in Hc as [Hc _].
Qed.

Lemma Rewritten_no_localName (s t : jsstring) :
  Rewritten s t -> includes t localName = false.
Proof.
  unfold includes. induction 1 as [|s t _ IH|m s t _ _ _ IH|s t _ IH|c s t Hc H IH].
  - reflexivity.
  - change (flagUN ++ t) with (0xD83C%N :: 0xDDFA%N :: 0xD83C%N :: 0xDDF3%N :: t).
    rewrite !occurs_cons, IH. reflexivity.
  - change (str "Taiwan" ++ t)
      with (84%N :: 97%N :: 105%N :: 119%N :: 97%N :: 110%N :: t).
    rewrite !occurs_cons, IH. reflexivity.
  - change (str "Taiwan" ++ t)
      with (84%N :: 97%N :: 105%N :: 119%N :: 97%N :: 110%N :: t).
    rewrite !occurs_cons, IH. reflexivity.
  - rewrite occurs_cons, IH, orb_false_r.
    apply (no_localName_at_head c s t H).
    unfold markerAt in Hc. now apply orb_false_iff in Hc as [_ Hc].
Qed.

Lemma formatRegion_unfold (region : jsstring) :
  formatRegion region = if hasMarker region then rewriteAll region else region.
Proof. reflexivity. Qed.

(** C6: a region label without the flag, the name (in any letter case) and
    the localized name is returned as it is; in any label the markers are
    rewritten, the flag to the neutral flag and both names to the label,
    and every other code unit is left in place, so that the result holds
    neither the flag nor the localized name.  The label is computed from
    the record's [region] field, which is only read. *)
Theorem formatRegion_rewrites_markers (region : jsstring) :
  (hasMarker region = false -> formatRegion region = region) /\
  (hasMarker region = true -> formatRegion region = rewriteAll region) /\
  Rewritten region (formatRegion region) /\
  includes (formatRegion region) flagTW = false /\
  includes (formatRegion region) localName = false /\
  (forall node : NodeData,
      Node.region node = region -> regionLabel node = formatRegion region).
Proof.
  assert (Rewritten region (formatRegion region)) as H.
  { rewrite formatRegion_unfold. destruct (hasMarker region) eqn:H.
    - apply Rewritten_rewriteAll.
    - now apply Rewritten_unmarked. }
  split; [|split; [|split; [|split; [|split]]]].
  - rewrite formatRegion_unfold. now intros ->.
  - rewrite formatRegion_unfold. now intros ->.
  - exact H.
  - exact (Rewritten_no_flag _ _ H).
  - exact (Rewritten_no_localName _ _ H).
  - intros node <-. reflexivity.
Qed.

Lemma formatRegion_rewrites_markers_witness :
  hasMarker (str "Tokyo") = false /\
  formatRegion (str "Tokyo") = str "Tokyo" /\
  hasMarker (flagTW ++ str " TAIWAN " ++ localName) = true /\
  formatRegion (flagTW ++ str " TAIWAN " ++ localName)
  = flagUN ++ str " Taiwan Taiwan".
Proof.
  split; [reflexivity|]. split.
  - apply (proj1 (formatRegion_rewrites_markers (str "Tokyo"))). reflexivity.
  - split; [reflexivity|].
    rewrite (proj1 (proj2 (formatRegion_rewrites_markers
                             (flagTW ++ str " TAIWAN " ++ localName)))
               eq_refl).
    reflexivity.
Defined.

(** ** The theme *)

Import UseTheme.

Lemma recognized_themes (v : jsstring) :
  In v recognized <-> exists t : Theme, themeId t = v.
Proof.
  split.
  - intros H. simpl in H.
    repeat destruct H as [H|H]; try contradiction;
      [ exists clean | exists sunrise | exists green_mountain | exists blue_water
      | exists night | exists material_indigo | exists material_pink
      | exists material_teal ]; exact H.
  - intros [t <-]. destruct t; simpl; tauto.
Qed.

Lemma Array_includes_In (a : list jsstring) (x : jsstring) :
  Array_includes a x = true <-> In x a.
Proof.
  unfold Array_includes. rewrite existsb_exists. split.
  - intros (y & Hy & E). apply jsstring_eqb_eq in E. now subst.
  - intros H. exists x. split; [assumption|]. now apply jsstring_eqb_eq.
Qed.

(** C8: the theme read back from storage is applied when it is one of the
    eight identifiers of [Theme]; an absent value, or one outside the eight,
    leaves the default, "clean". *)
Theorem restoreTheme_validates (storage : Storage) :
  (forall t : Theme,
      getItem storage (str "komari-theme") = Some (themeId t) ->
      restoreTheme storage = themeId t) /\
  (getItem storage (str "komari-theme") = None ->
   restoreTheme storage = str "clean") /\
  (forall v : jsstring,
      getItem storage (str "komari-theme") = Some v ->
      (forall t : Theme, themeId t <> v) ->
      restoreTheme storage = str "clean") /\
  length recognized = 8%nat /\
  NoDup recognized /\
  (forall v : jsstring, In v recognized <-> exists t : Theme, themeId t = v).
Proof.
  unfold restoreTheme. repeat split.
  - intros t ->. now destruct t.
  - now intros ->.
  - intros v -> Hv.
    destruct (truthy v && Array_includes recognized v) eqn:E; [|reflexivity].
    apply andb_true_iff in E as [_ E]. apply Array_includes_In in E.
    apply recognized_themes in E as [t Ht]. now destruct (Hv t).
  - repeat constructor; intros H; simpl in H;
      repeat destruct H as [H|H]; try contradiction; discriminate H.
  - apply recognized_themes.
  - apply recognized_themes.
Qed.

Lemma restoreTheme_validates_witness :
  restoreTheme [(str "komari-theme", str "night")] = str "night" /\
  restoreTheme [] = str "clean" /\
  restoreTheme [(str "komari-theme", str "midnight")] = str "clean".
Proof.
  split; [|split].
  - apply (proj1 (restoreTheme_validates [(str "komari-theme", str "night")]) night).
    reflexivity.
  - apply (proj1 (proj2 (restoreTheme_validates []))). reflexivity.
  - apply (proj1 (proj2 (proj2 (restoreTheme_validates
                                  [(str "komari-theme", str "midnight")])))
             (str "midnight")).
    + reflexivity.
    + intros t; destruct t; discriminate.
Defined.

(** ** Uptime *)

Lemma formatUptime_parts (seconds d h r : Z) :
  0 <= d -> 0 <= h < 24 -> 0 <= r < 3600 ->
  seconds = 86400 * d + 3600 * h + r ->
  formatUptime seconds =
    if d =? 0 then decimal h ++ hoursUnit
    else if h =? 0 then decimal d ++ daysUnit
    else decimal d ++ daysUnit ++ decimal h ++ hoursUnit.
Proof.
  intros Hd Hh Hr ->. unfold formatUptime.
  assert ((86400 * d + 3600 * h + r) / 86400 = d) as ->.
  { symmetry. apply (Z.div_unique _ _ d (3600 * h + r)); lia. }
  assert (Z.rem (86400 * d + 3600 * h + r) 86400 = 3600 * h + r) as ->.
  { rewrite Z.rem_mod_nonneg by lia.
    symmetry. apply (Z.mod_unique _ _ d); lia. }
  assert ((3600 * h + r) / 3600 = h) as ->.
  { symmetry. apply (Z.div_unique _ _ h r); lia. }
  destruct (Z.eqb_spec d 0) as [->|Hd0].
  - reflexivity.
  - replace (0 <? d) with true by (symmetry; apply Z.ltb_lt; lia).
    destruct (Z.eqb_spec h 0) as [->|Hh0].
    + reflexivity.
    + replace (0 <? h) with true by (symmetry; apply Z.ltb_lt; lia).
      reflexivity.
Qed.

(** C5: an uptime of [seconds >= 0] is [d] whole days, [h < 24] whole hours
    and a rest below an hour; it is printed as the hours alone when [d] is
    0, as the days alone when [h] is 0 and [d] is not, and as both
    otherwise. *)
Theorem formatUptime_days_and_hours (seconds : Z) :
  0 <= seconds ->
  exists d h r : Z,
    0 <= d /\ 0 <= h < 24 /\ 0 <= r < 3600 /\
    seconds = 86400 * d + 3600 * h + r /\
    formatUptime seconds =
      if d =? 0 then decimal h ++ hoursUnit
      else if h =? 0 then decimal d ++ daysUnit
      else decimal d ++ daysUnit ++ decimal h ++ hoursUnit.
Proof.
  intros H.
  exists (seconds / 86400), (seconds mod 86400 / 3600), (seconds mod 86400 mod 3600).
  pose proof (Z.div_mod seconds 86400 ltac:(lia)) as E1.
  pose proof (Z.mod_pos_bound seconds 86400 ltac:(lia)) as B1.
  pose proof (Z.div_mod (seconds mod 86400) 3600 ltac:(lia)) as E2.
  pose proof (Z.mod_pos_bound (seconds mod 86400) 3600 ltac:(lia)) as B2.
  assert (0 <= seconds / 86400) by (apply Z.div_pos; lia).
  assert (0 <= seconds mod 86400 / 3600 < 24)
    by (split; [apply Z.div_pos; lia | apply Z.div_lt_upper_bound; lia]).
  repeat split; try lia.
  apply (formatUptime_parts _ _ _ (seconds mod 86400 mod 3600)); lia.
Qed.

(** Exactly two days: the days alone. *)
Lemma formatUptime_days_and_hours_witness :
  0 <= 172800 /\ formatUptime 172800 = str "2" ++ daysUnit.
Proof.
  split; [lia|].
  destruct (formatUptime_days_and_hours 172800 ltac:(lia))
    as (d & h & r & Hd & Hh & Hr & E & ->).
  assert (d = 2) as -> by lia. assert (h = 0) as -> by lia.
  reflexivity.
Defined.

(** ** Bytes and rates *)

(** The two copies of each formatter are the same function. *)
Lemma App_formatBytes_same (bytes : Z) : App.formatBytes bytes = NodeCard.formatBytes bytes.
Proof. reflexivity. Qed.

Lemma App_formatSpeed_same (rate : Z) : App.formatSpeed rate = NodeCard.formatSpeed rate.
Proof. reflexivity. Qed.

(** C3: zero is answered before any logarithm is taken, with the smallest
    unit; 1536 bytes are one and a half KB. *)
Theorem format_zero_and_kilobytes :
  NodeCard.formatBytes 0 = str "0 B" /\
  NodeCard.formatSpeed 0 = str "0 B/s" /\
  NodeCard.formatBytes 1536 = str "1.5 KB" /\
  App.formatBytes 0 = str "0 B" /\
  App.formatSpeed 0 = str "0 B/s" /\
  App.formatBytes 1536 = str "1.5 KB".
Proof. repeat split; vm_compute; reflexivity. Qed.

(** The index of [floorLogRatio] is the base-1024 logarithm, rounded
    down. *)
Lemma floorLogRatio_1024 (x : Z) :
  0 < x ->
  exists i : Z,
    floorLogRatio x 1024 = Some i /\ 0 <= i /\ 1024 ^ i <= x < 1024 ^ (i + 1).
Proof.
  intros Hx. unfold floorLogRatio.
  replace (0 <? x) with true by (symmetry; now apply Z.ltb_lt).
  change (Z.log2 1024) with 10.
  exists (Z.log2 x / 10).
  pose proof (Z.log2_nonneg x) as HL.
  destruct (Z.log2_spec x Hx) as [Hlo Hhi].
  pose proof (Z.div_mod (Z.log2 x) 10 ltac:(lia)) as E.
  pose proof (Z.mod_pos_bound (Z.log2 x) 10 ltac:(lia)) as B.
  assert (0 <= Z.log2 x / 10) as Hi by (apply Z.div_pos; lia).
  split; [reflexivity|]. split; [assumption|].
  change 1024 with (2 ^ 10). rewrite <- !Z.pow_mul_r by lia. split.
  - apply Z.le_trans with (2 ^ Z.log2 x); [|assumption].
    apply Z.pow_le_mono_r; lia.
  - apply Z.lt_le_trans with (2 ^ Z.succ (Z.log2 x)); [assumption|].
    apply Z.pow_le_mono_r; lia.
Qed.

(** The scaled value the formatters print lies between 1 and 1024, far
    below the magnitude at which [toFixed] changes notation. *)
Lemma scaled_range (x i : Z) :
  0 <= i -> 1024 ^ i <= x < 1024 ^ (i + 1) ->
  (1 <= inject_Z x / inject_Z 1024 ^ i)%Q /\ (inject_Z x / inject_Z 1024 ^ i < 1024)%Q.
Proof.
  intros Hi [Hlo Hhi].
  assert (0 < 1024 ^ i) as Hp by (apply Z.pow_pos_nonneg; lia).
  assert (inject_Z 1024 ^ i == inject_Z (1024 ^ i))%Q as E
    by (symmetry; now apply Zpower_Qpower).
  rewrite E.
  assert (0 < inject_Z (1024 ^ i))%Q as Hq by (unfold Qlt; simpl; lia).
  split.
  - apply Qle_shift_div_l; [assumption|]. rewrite Qmult_1_l.
    rewrite <- Zle_Qle. assumption.
  - apply Qlt_shift_div_r; [assumption|].
    rewrite Z.pow_add_r, Z.pow_1_r in Hhi by lia.
    unfold Qlt. cbn [Qnum Qden Qmult inject_Z]. lia.
Qed.

Lemma formatBytes_shape (bytes : Z) :
  0 < bytes ->
  exists i : Z,
    0 <= i /\ 1024 ^ i <= bytes < 1024 ^ (i + 1) /\
    NodeCard.formatBytes bytes =
      numberToString
        (parseFloat (Exact.toFixed (Val (inject_Z bytes / inject_Z 1024 ^ i)) 2))
      ++ str " " ++ orUndefined (nth_error byteUnits (Z.to_nat i)).
Proof.
  intros H. destruct (floorLogRatio_1024 bytes H) as (i & E & Hi & Hr).
  exists i. repeat split; try tauto.
  unfold NodeCard.formatBytes. cbv zeta. rewrite E.
  replace (bytes =? 0) with false by (symmetry; apply Z.eqb_neq; lia).
  unfold Math_pow, divide, element.
  replace (i <? 0) with false by (symmetry; apply Z.ltb_ge; lia).
  reflexivity.
Qed.

Lemma formatSpeed_shape (rate : Z) :
  0 < rate ->
  exists i : Z,
    0 <= i /\ 1024 ^ i <= rate < 1024 ^ (i + 1) /\
    NodeCard.formatSpeed rate =
      numberToString
        (parseFloat (Exact.toFixed (Val (inject_Z rate / inject_Z 1024 ^ i)) 1))
      ++ str " " ++ orUndefined (nth_error rateUnits (Z.to_nat i)).
Proof.
  intros H. destruct (floorLogRatio_1024 rate H) as (i & E & Hi & Hr).
  exists i. repeat split; try tauto.
  unfold NodeCard.formatSpeed. cbv zeta. rewrite E.
  replace (rate =? 0) with false by (symmetry; apply Z.eqb_neq; lia).
  unfold Math_pow, divide, element.
  replace (i <? 0) with false by (symmetry; apply Z.ltb_ge; lia).
  reflexivity.
Qed.

(** Below 1024^4 bytes the unit is one of the table. *)
Lemma formatBytes_unit_in_table (bytes : Z) :
  0 < bytes < 1024 ^ 4 ->
  exists magnitude unit : jsstring,
    In unit byteUnits /\
    NodeCard.formatBytes bytes = magnitude ++ str " " ++ unit.
Proof.
  intros [H0 H4]. destruct (formatBytes_shape bytes H0) as (i & Hi & [Hlo Hhi] & ->).
  assert (i < 4) as Hi4.
  { apply (Z.pow_lt_mono_r_iff 1024); lia. }
  eexists. destruct (nth_error byteUnits (Z.to_nat i)) as [u|] eqn:E.
  - exists u. split; [now apply nth_error_In in E|reflexivity].
  - apply nth_error_None in E. simpl in E. lia.
Qed.

(** From 1024^5 bytes on the index is past the table and the unit printed
    is the text of [undefined]. *)
Lemma formatBytes_unit_undefined (bytes : Z) :
  1024 ^ 5 <= bytes ->
  exists magnitude : jsstring,
    NodeCard.formatBytes bytes = magnitude ++ str " undefined".
Proof.
  intros H5. destruct (formatBytes_shape bytes ltac:(lia)) as (i & Hi & [Hlo Hhi] & ->).
  assert (5 < i + 1) as Hi5.
  { apply (Z.pow_lt_mono_r_iff 1024); lia. }
  eexists.
  replace (nth_error byteUnits (Z.to_nat i)) with (@None jsstring)
    by (symmetry; apply nth_error_None; simpl; lia).
  reflexivity.
Qed.

Lemma formatSpeed_unit_in_table (rate : Z) :
  0 < rate < 1024 ^ 4 ->
  exists magnitude unit : jsstring,
    In unit rateUnits /\
    NodeCard.formatSpeed rate = magnitude ++ str " " ++ unit.
Proof.
  intros [H0 H4]. destruct (formatSpeed_shape rate H0) as (i & Hi & [Hlo Hhi] & ->).
  assert (i < 4) as Hi4.
  { apply (Z.pow_lt_mono_r_iff 1024); lia. }
  eexists. destruct (nth_error rateUnits (Z.to_nat i)) as [u|] eqn:E.
  - exists u. split; [now apply nth_error_In in E|reflexivity].
  - apply nth_error_None in E. simpl in E. lia.
Qed.

Lemma formatSpeed_unit_undefined (rate : Z) :
  1024 ^ 4 <= rate ->
  exists magnitude : jsstring,
    NodeCard.formatSpeed rate = magnitude ++ str " undefined".
Proof.
  intros H4. destruct (formatSpeed_shape rate ltac:(lia)) as (i & Hi & [Hlo Hhi] & ->).
  assert (4 < i + 1) as Hi4.
  { apply (Z.pow_lt_mono_r_iff 1024); lia. }
  eexists.
  replace (nth_error rateUnits (Z.to_nat i)) with (@None jsstring)
    by (symmetry; apply nth_error_None; simpl; lia).
  reflexivity.
Qed.

(** C4: at 2 * 1024^5 bytes, and at 2 * 1024^4 bytes per second, the unit
    printed is not one of the table: the index is 5 (resp. 4), one past the
    last unit, and the text is "2 undefined". *)
Theorem format_unit_past_table :
  NodeCard.formatBytes (2 * 1024 ^ 5) = str "2 undefined" /\
  NodeCard.formatSpeed (2 * 1024 ^ 4) = str "2 undefined" /\
  App.formatBytes (2 * 1024 ^ 5) = str "2 undefined" /\
  App.formatSpeed (2 * 1024 ^ 4) = str "2 undefined" /\
  ~ In (str "undefined") byteUnits /\
  ~ In (str "undefined") rateUnits.
Proof.
  repeat split; try (vm_compute; reflexivity);
    intros H; simpl in H; repeat destruct H as [H|H]; try contradiction;
    discriminate H.
Qed.

(** ** The order of doubles *)

Section FloatOrder.
Local Open Scope float_scope.

Ltac compare_cases :=
  repeat match goal with
    | H : context [Pos.compare_cont Eq ?a ?b] |- _ =>
        change (Pos.compare_cont Eq a b) with (Pos.compare a b) in H
    | |- context [Pos.compare_cont Eq ?a ?b] =>
        change (Pos.compare_cont Eq a b) with (Pos.compare a b)
    end;
  repeat match goal with
    | H : context [Z.compare ?a ?b] |- _ => destruct (Z.compare_spec a b)
    | H : context [Pos.compare ?a ?b] |- _ => destruct (Pos.compare_spec a b)
    | |- context [Z.compare ?a ?b] => destruct (Z.compare_spec a b)
    | |- context [Pos.compare ?a ?b] => destruct (Pos.compare_spec a b)
    end;
  simpl in *; subst; try discriminate; try reflexivity; try lia.

Lemma SFcompare_antisym (x y : spec_float) :
  SFcompare x y = Some Lt -> SFcompare y x = Some Gt.
Proof.
  destruct x as [sx|sx| |sx mx ex], y as [sy|sy| |sy my ey]; simpl;
    try destruct sx; try destruct sy; try discriminate; try reflexivity;
    intros H; compare_cases.
Qed.

Lemma SFcompare_trans (x y z : spec_float) :
  SFcompare x y = Some Lt -> SFcompare y z = Some Lt -> SFcompare x z = Some Lt.
Proof.
  destruct x as [sx|sx| |sx mx ex], y as [sy|sy| |sy my ey],
           z as [sz|sz| |sz mz ez]; simpl;
    try destruct sx; try destruct sy; try destruct sz;
    try discriminate; try reflexivity;
    intros H1 H2; compare_cases.
Qed.

Lemma ltb_leb_false (x y : float) : (x <? y) = true -> (y <=? x) = false.
Proof.
  rewrite ltb_spec, leb_spec. unfold SFltb, SFleb.
  destruct (SFcompare (Prim2SF x) (Prim2SF y)) as [[| |]|] eqn:E;
    try discriminate.
  intros _. now rewrite (SFcompare_antisym _ _ E).
Qed.

Lemma ltb_leb (x y : float) : (x <? y) = true -> (x <=? y) = true.
Proof.
  rewrite ltb_spec, leb_spec. unfold SFltb, SFleb.
  destruct (SFcompare (Prim2SF x) (Prim2SF y)) as [[| |]|]; try discriminate.
  reflexivity.
Qed.

Lemma ltb_trans (x y z : float) :
  (x <? y) = true -> (y <? z) = true -> (x <? z) = true.
Proof.
  rewrite !ltb_spec. unfold SFltb.
  destruct (SFcompare (Prim2SF x) (Prim2SF y)) as [[| |]|] eqn:E1;
    try discriminate.
  destruct (SFcompare (Prim2SF y) (Prim2SF z)) as [[| |]|] eqn:E2;
    try discriminate.
  intros _ _. now rewrite (SFcompare_trans _ _ _ E1 E2).
Qed.

(** Above [hi], at or above any threshold below [hi]. *)
Lemma above (threshold hi x : float) :
  (threshold <? hi) = true -> (hi <? x) = true -> (threshold <=? x) = true.
Proof. intros H1 H2. apply ltb_leb. exact (ltb_trans _ _ _ H1 H2). Qed.

(** Below [lo], not at or above any threshold from [lo] on. *)
Lemma below (lo threshold x : float) :
  (lo <=? threshold) = true -> (x <? lo) = true -> (threshold <=? x) = false.
Proof.
  intros H1 H2. rewrite leb_spec in *. rewrite ltb_spec in H2.
  unfold SFleb, SFltb in *.
  destruct (SFcompare (Prim2SF x) (Prim2SF lo)) as [[| |]|] eqn:E2;
    try discriminate.
  destruct (SFcompare (Prim2SF lo) (Prim2SF threshold)) as [[| |]|] eqn:E1;
    try discriminate.
  - (* lo and threshold compare equal *)
    destruct (SFcompare (Prim2SF threshold) (Prim2SF x)) as [[| |]|] eqn:E3;
      try reflexivity; exfalso;
      revert E1 E2 E3;
      destruct (Prim2SF x) as [sx|sx| |sx mx ex],
               (Prim2SF lo) as [sy|sy| |sy my ey],
               (Prim2SF threshold) as [sz|sz| |sz mz ez]; simpl;
      try destruct sx; try destruct sy; try destruct sz;
      try discriminate; intros E1 E2 E3; compare_cases.
  - now rewrite (SFcompare_antisym _ _ (SFcompare_trans _ _ _ E2 E1)).
Qed.
End FloatOrder.

(** ** Status classification *)

Section Classification.
Local Open Scope float_scope.

Lemma ramStatus_unfold (stats : NodeStats) :
  ramStatus (Some stats) =
    if 85 <=? ramUsage stats then critical
    else if 70 <=? ramUsage stats then warning
    else normal.
Proof. reflexivity. Qed.

Lemma diskStatus_unfold (stats : NodeStats) :
  diskStatus (Some stats) =
    if 90 <=? diskUsage stats then critical
    else if 75 <=? diskUsage stats then warning
    else normal.
Proof. reflexivity. Qed.

(** C1: the thresholds are 80 and 60 for the processor, 85 and 70 for the
    memory, 90 and 75 for the disk: at or above the first the status is
    critical, at or above the second (and below the first) it is warning;
    a processor usage of exactly 80 is critical, of exactly 60 warning,
    of 59.999 normal. *)
Theorem status_thresholds (stats : NodeStats) :
  ((80 <=? cpu_usage stats) = true -> cpuStatus (Some stats) = critical) /\
  ((60 <=? cpu_usage stats) = true -> (cpu_usage stats <? 80) = true ->
   cpuStatus (Some stats) = warning) /\
  ((85 <=? ramUsage stats) = true -> ramStatus (Some stats) = critical) /\
  ((70 <=? ramUsage stats) = true -> (ramUsage stats <? 85) = true ->
   ramStatus (Some stats) = warning) /\
  ((90 <=? diskUsage stats) = true -> diskStatus (Some stats) = critical) /\
  ((75 <=? diskUsage stats) = true -> (diskUsage stats <? 90) = true ->
   diskStatus (Some stats) = warning) /\
  (cpu_usage stats = 80 -> cpuStatus (Some stats) = critical) /\
  (cpu_usage stats = 60 -> cpuStatus (Some stats) = warning) /\
  (cpu_usage stats = 0x1.dffdf3b645a1dp+5 (* 59.999 *) ->
   cpuStatus (Some stats) = normal).
Proof.
  rewrite ramStatus_unfold, diskStatus_unfold. unfold cpuStatus. cbv zeta.
  repeat split.
  - now intros ->.
  - intros H1 H2. now rewrite (ltb_leb_false _ _ H2), H1.
  - now intros ->.
  - intros H1 H2. now rewrite (ltb_leb_false _ _ H2), H1.
  - now intros ->.
  - intros H1 H2. now rewrite (ltb_leb_false _ _ H2), H1.
  - now intros ->.
  - now intros ->.
  - now intros ->.
Qed.

Lemma status_thresholds_witness :
  cpuStatus (Some (sampleStats 80 1 2 1 2)) = critical /\
  cpuStatus (Some (sampleStats 60 1 2 1 2)) = warning /\
  cpuStatus (Some (sampleStats 0x1.dffdf3b645a1dp+5 1 2 1 2)) = normal /\
  cpuStatus (Some (sampleStats 79.5 1 2 1 2)) = warning /\
  ramStatus (Some (sampleStats 0 85 100 0 1)) = critical /\
  ramStatus (Some (sampleStats 0 70 100 0 1)) = warning /\
  diskStatus (Some (sampleStats 0 0 1 90 100)) = critical /\
  diskStatus (Some (sampleStats 0 0 1 75 100)) = warning.
Proof.
  split; [|split; [|split; [|split; [|split; [|split; [|split]]]]]].
  - destruct (status_thresholds (sampleStats 80 1 2 1 2))
      as (_ & _ & _ & _ & _ & _ & T & _).
    apply T. reflexivity.
  - destruct (status_thresholds (sampleStats 60 1 2 1 2))
      as (_ & _ & _ & _ & _ & _ & _ & T & _).
    apply T. reflexivity.
  - destruct (status_thresholds (sampleStats 0x1.dffdf3b645a1dp+5 1 2 1 2))
      as (_ & _ & _ & _ & _ & _ & _ & _ & T).
    apply T. reflexivity.
  - destruct (status_thresholds (sampleStats 79.5 1 2 1 2)) as (_ & T & _).
    apply T; reflexivity.
  - destruct (status_thresholds (sampleStats 0 85 100 0 1)) as (_ & _ & T & _).
    apply T. reflexivity.
  - destruct (status_thresholds (sampleStats 0 70 100 0 1))
      as (_ & _ & _ & T & _).
    apply T; reflexivity.
  - destruct (status_thresholds (sampleStats 0 0 1 90 100))
      as (_ & _ & _ & _ & T & _).
    apply T. reflexivity.
  - destruct (status_thresholds (sampleStats 0 0 1 75 100))
      as (_ & _ & _ & _ & _ & T & _).
    apply T; reflexivity.
Defined.

(** C2: the three classifiers are functions with three results and no
    failure; without statistics each answers normal; a usage below the
    warning threshold is normal; a usage above 100 is critical, by the
    same comparison as any other. *)
Theorem status_total (stats : NodeStats) :
  cpuStatus None = normal /\ ramStatus None = normal /\ diskStatus None = normal /\
  (forall o : option NodeStats,
      In (cpuStatus o) [normal; warning; critical] /\
      In (ramStatus o) [normal; warning; critical] /\
      In (diskStatus o) [normal; warning; critical]) /\
  ((cpu_usage stats <? 60) = true -> cpuStatus (Some stats) = normal) /\
  ((ramUsage stats <? 70) = true -> ramStatus (Some stats) = normal) /\
  ((diskUsage stats <? 75) = true -> diskStatus (Some stats) = normal) /\
  ((100 <? cpu_usage stats) = true -> cpuStatus (Some stats) = critical) /\
  ((100 <? ramUsage stats) = true -> ramStatus (Some stats) = critical) /\
  ((100 <? diskUsage stats) = true -> diskStatus (Some stats) = critical).
Proof.
  rewrite ramStatus_unfold, diskStatus_unfold.
  split; [reflexivity|]. split; [reflexivity|]. split; [reflexivity|].
  split.
  { intros [s|]; simpl; [|tauto].
    destruct (80 <=? cpu_usage s), (60 <=? cpu_usage s),
      (85 <=? used (ram s) / total (ram s) * 100),
      (70 <=? used (ram s) / total (ram s) * 100),
      (90 <=? used (disk s) / total (disk s) * 100),
      (75 <=? used (disk s) / total (disk s) * 100); tauto. }
  unfold cpuStatus. cbv zeta. repeat split; intros H.
  - now rewrite (below 60 80 _ eq_refl H), (below 60 60 _ eq_refl H).
  - now rewrite (below 70 85 _ eq_refl H), (below 70 70 _ eq_refl H).
  - now rewrite (below 75 90 _ eq_refl H), (below 75 75 _ eq_refl H).
  - now rewrite (above 80 100 _ eq_refl H).
  - now rewrite (above 85 100 _ eq_refl H).
  - now rewrite (above 90 100 _ eq_refl H).
Qed.

Lemma status_total_witness :
  cpuStatus (Some (sampleStats 12.5 1 2 1 2)) = normal /\
  ramStatus (Some (sampleStats 0 1 2 1 2)) = normal /\
  diskStatus (Some (sampleStats 0 1 2 1 2)) = normal /\
  cpuStatus (Some (sampleStats 250 1 2 1 2)) = critical /\
  ramStatus (Some (sampleStats 0 3 2 1 2)) = critical /\
  diskStatus (Some (sampleStats 0 1 2 3 2)) = critical.
Proof.
  split; [|split; [|split; [|split; [|split]]]].
  - destruct (status_total (sampleStats 12.5 1 2 1 2))
      as (_ & _ & _ & _ & T & _).
    apply T. reflexivity.
  - destruct (status_total (sampleStats 0 1 2 1 2))
      as (_ & _ & _ & _ & _ & T & _).
    apply T. reflexivity.
  - destruct (status_total (sampleStats 0 1 2 1 2))
      as (_ & _ & _ & _ & _ & _ & T & _).
    apply T. reflexivity.
  - destruct (status_total (sampleStats 250 1 2 1 2))
      as (_ & _ & _ & _ & _ & _ & _ & T & _).
    apply T. reflexivity.
  - destruct (status_total (sampleStats 0 3 2 1 2))
      as (_ & _ & _ & _ & _ & _ & _ & _ & T & _).
    apply T. reflexivity.
  - destruct (status_total (sampleStats 0 1 2 3 2))
      as (_ & _ & _ & _ & _ & _ & _ & _ & _ & T).
    apply T. reflexivity.
Defined.
End Classification.

(** ** A total of zero *)

Section ZeroTotal.
Local Open Scope float_scope.

Lemma zero_is_zero (t : float) :
  (t =? 0) = true -> exists s : bool, Prim2SF t = S754_zero s.
Proof.
  rewrite FloatAxioms.eqb_spec. change (Prim2SF 0) with (S754_zero false).
  destruct (Prim2SF t) as [s|s| |s m e]; simpl.
  - intros _. now exists s.
  - now destruct s.
  - discriminate.
  - now destruct s.
Qed.

Lemma positive_is_positive (u : float) :
  (0 <? u) = true ->
  Prim2SF u = S754_infinity false \/ exists m e, Prim2SF u = S754_finite false m e.
Proof.
  rewrite ltb_spec. change (Prim2SF 0) with (S754_zero false).
  destruct (Prim2SF u) as [s|s| |s m e]; simpl; try discriminate.
  - destruct s; [discriminate|]. now left.
  - destruct s; [discriminate|]. right. now exists m, e.
Qed.

(** The quotient by a zero, times 100, is NaN or an infinity. *)
Lemma percent_of_zero_total (u t : float) :
  (t =? 0) = true ->
  u / t * 100 = nan \/ u / t * 100 = infinity \/ u / t * 100 = neg_infinity.
Proof.
  intros H. destruct (zero_is_zero t H) as [s Et].
  assert (Prim2SF (u / t * 100) = S754_nan
          \/ Prim2SF (u / t * 100) = S754_infinity false
          \/ Prim2SF (u / t * 100) = S754_infinity true) as E.
  { rewrite mul_spec, div_spec, Et.
    let v := eval vm_compute in (Prim2SF 100) in change (Prim2SF 100) with v.
    destruct (Prim2SF u) as [su|su| |su mu eu]; try destruct su; destruct s;
      simpl; auto. }
  destruct E as [E|[E|E]]; [left|right; left|right; right];
    apply Prim2SF_inj; rewrite E; reflexivity.
Qed.

(** Nothing used of nothing: NaN. *)
Lemma percent_of_zero_used (u t : float) :
  (t =? 0) = true -> (u =? 0) = true -> u / t * 100 = nan.
Proof.
  intros Ht Hu. destruct (zero_is_zero t Ht) as [s Et].
  destruct (zero_is_zero u Hu) as [s' Eu].
  apply Prim2SF_inj. rewrite mul_spec, div_spec, Et, Eu. reflexivity.
Qed.

(** Something used of a total of (positive) zero: the positive infinity. *)
Lemma percent_of_positive_used (u : float) :
  (0 <? u) = true -> u / 0 * 100 = infinity.
Proof.
  intros Hu. apply Prim2SF_inj. rewrite mul_spec, div_spec.
  let v := eval vm_compute in (Prim2SF 100) in change (Prim2SF 100) with v.
  change (Prim2SF 0) with (S754_zero false).
  destruct (positive_is_positive u Hu) as [->|(m & e & ->)]; reflexivity.
Qed.

Lemma ramPercent_unfold (stats : NodeStats) :
  ramPercent stats = Double.toFixed (ramUsage stats) 1 ++ str "%".
Proof. reflexivity. Qed.

Lemma diskPercent_unfold (stats : NodeStats) :
  diskPercent stats = Double.toFixed (diskUsage stats) 1 ++ str "%".
Proof. reflexivity. Qed.

(** C9: what the code does where the claim asks for a sentinel.  With a
    memory or disk total of zero nothing fails, but the quotient is taken
    without a guard and no value stands in for it.  The usage is the
    IEEE quotient times 100: NaN, with status normal and the text "NaN%";
    or the positive infinity, with status critical and the text
    "Infinity%"; or the negative infinity, with status normal and the
    text "-Infinity%".  It is NaN when nothing is used, and the positive
    infinity when the used amount is positive and the total is 0. *)
Theorem usage_of_zero_total (stats : NodeStats) :
  ((total (ram stats) =? 0) = true ->
   (ramUsage stats = nan /\ ramStatus (Some stats) = normal
    /\ ramPercent stats = str "NaN%")
   \/ (ramUsage stats = infinity /\ ramStatus (Some stats) = critical
       /\ ramPercent stats = str "Infinity%")
   \/ (ramUsage stats = neg_infinity /\ ramStatus (Some stats) = normal
       /\ ramPercent stats = str "-Infinity%")) /\
  ((total (disk stats) =? 0) = true ->
   (diskUsage stats = nan /\ diskStatus (Some stats) = normal
    /\ diskPercent stats = str "NaN%")
   \/ (diskUsage stats = infinity /\ diskStatus (Some stats) = critical
       /\ diskPercent stats = str "Infinity%")
   \/ (diskUsage stats = neg_infinity /\ diskStatus (Some stats) = normal
       /\ diskPercent stats = str "-Infinity%")) /\
  ((total (ram stats) =? 0) = true -> (used (ram stats) =? 0) = true ->
   ramUsage stats = nan) /\
  ((total (disk stats) =? 0) = true -> (used (disk stats) =? 0) = true ->
   diskUsage stats = nan) /\
  (total (ram stats) = 0 -> (0 <? used (ram stats)) = true ->
   ramUsage stats = infinity) /\
  (total (disk stats) = 0 -> (0 <? used (disk stats)) = true ->
   diskUsage stats = infinity).
Proof.
  rewrite ramStatus_unfold, diskStatus_unfold, ramPercent_unfold, diskPercent_unfold.
  split; [|split; [|split; [|split; [|split]]]].
  - intros H. unfold ramUsage.
    destruct (percent_of_zero_total (used (ram stats)) _ H) as [E|[E|E]];
      rewrite E; [left|right; left|right; right];
      (split; [reflexivity|split; [reflexivity|vm_compute; reflexivity]]).
  - intros H. unfold diskUsage.
    destruct (percent_of_zero_total (used (disk stats)) _ H) as [E|[E|E]];
      rewrite E; [left|right; left|right; right];
      (split; [reflexivity|split; [reflexivity|vm_compute; reflexivity]]).
  - intros H1 H2. now apply percent_of_zero_used.
  - intros H1 H2. now apply percent_of_zero_used.
  - intros H1 H2. unfold ramUsage. rewrite H1. now apply percent_of_positive_used.
  - intros H1 H2. unfold diskUsage. rewrite H1. now apply percent_of_positive_used.
Qed.

Lemma usage_of_zero_total_witness :
  ramUsage (sampleStats 0 0 0 1 2) = nan /\
  diskUsage (sampleStats 0 1 2 0 0) = nan /\
  ramUsage (sampleStats 0 5 0 1 2) = infinity /\
  diskUsage (sampleStats 0 1 2 5 0) = infinity.
Proof.
  split; [|split; [|split]].
  - destruct (usage_of_zero_total (sampleStats 0 0 0 1 2))
      as (_ & _ & T & _).
    apply T; reflexivity.
  - destruct (usage_of_zero_total (sampleStats 0 1 2 0 0))
      as (_ & _ & _ & T & _).
    apply T; reflexivity.
  - destruct (usage_of_zero_total (sampleStats 0 5 0 1 2))
      as (_ & _ & _ & _ & T & _).
    apply T; reflexivity.
  - destruct (usage_of_zero_total (sampleStats 0 1 2 5 0))
      as (_ & _ & _ & _ & _ & T).
    apply T; reflexivity.
Defined.

(** With a total of zero the card shows "NaN%" when nothing is used and
    "Infinity%" (status critical) when 5 bytes are: neither "0%" nor
    "N/A", and not one text for every such record. *)
Lemma zero_total_is_not_a_sentinel :
  ramPercent (sampleStats 0 0 0 0 0) = str "NaN%" /\
  ramStatus (Some (sampleStats 0 0 0 0 0)) = normal /\
  ramPercent (sampleStats 0 5 0 5 0) = str "Infinity%" /\
  ramStatus (Some (sampleStats 0 5 0 5 0)) = critical /\
  diskPercent (sampleStats 0 0 0 0 0) = str "NaN%" /\
  diskStatus (Some (sampleStats 0 0 0 0 0)) = normal /\
  diskPercent (sampleStats 0 5 0 5 0) = str "Infinity%" /\
  diskStatus (Some (sampleStats 0 5 0 5 0)) = critical /\
  ramPercent (sampleStats 0 0 0 0 0) <> ramPercent (sampleStats 0 5 0 5 0).
Proof. repeat split; try (vm_compute; reflexivity). vm_compute. discriminate. Qed.
End ZeroTotal.

(** ** The fleet totals *)

Section Totals.
Local Open Scope float_scope.
Import App.

Lemma addNode_onlineNetwork (acc : NetworkStats) (node : NodeData) :
  addNode acc node =
    match onlineNetwork node with
    | Some net => addNetwork acc net
    | None => acc
    end.
Proof.
  unfold addNode, onlineNetwork.
  destruct (status node) as [[|]|]; try reflexivity.
  destruct (stats node) as [st|]; reflexivity.
Qed.

Lemma fold_addNode (nodes : list NodeData) (acc : NetworkStats) :
  fold_left addNode nodes acc = fold_left addNetwork (onlineNetworks nodes) acc.
Proof.
  revert acc; induction nodes as [|node nodes IH]; intros acc; [reflexivity|].
  simpl. rewrite addNode_onlineNetwork, IH.
  destruct (onlineNetwork node); reflexivity.
Qed.

Lemma fold_addNetwork (nets : list Network) (acc : NetworkStats) :
  fold_left addNetwork nets acc =
    {| totalUp :=
         fold_left (fun a net => a + orZero (Node.up net)) nets (totalUp acc);
       totalDown :=
         fold_left (fun a net => a + orZero (Node.down net)) nets (totalDown acc);
       totalUpTraffic :=
         fold_left (fun a net => a + orZero (Node.totalUp net)) nets
           (totalUpTraffic acc);
       totalDownTraffic :=
         fold_left (fun a net => a + orZero (Node.totalDown net)) nets
           (totalDownTraffic acc) |}.
Proof.
  revert acc; induction nets as [|net nets IH]; intros acc.
  - now destruct acc.
  - simpl. now rewrite IH.
Qed.

Lemma onlineNetworks_app (l1 l2 : list NodeData) :
  onlineNetworks (l1 ++ l2) = onlineNetworks l1 ++ onlineNetworks l2.
Proof.
  induction l1 as [|node l1 IH]; [reflexivity|].
  simpl. rewrite IH. destruct (onlineNetwork node); reflexivity.
Qed.

Lemma In_onlineNetworks (nodes : list NodeData) (net : Network) :
  In net (onlineNetworks nodes) <->
  exists node st,
    In node nodes /\ status node = Some online /\
    stats node = Some st /\ network st = Some net.
Proof.
  induction nodes as [|node nodes IH]; simpl.
  - split; [contradiction|]. now intros (? & ? & [] & _).
  - assert (onlineNetwork node = Some net <->
            exists st, status node = Some online /\ stats node = Some st
                       /\ network st = Some net) as Hn.
    { unfold onlineNetwork. split.
      - destruct (status node) as [[|]|]; try discriminate.
        destruct (stats node) as [st|]; try discriminate.
        intros H. now exists st.
      - intros (st & -> & -> & H). exact H. }
    split.
    + intros H.
      destruct (onlineNetwork node) as [net'|] eqn:E.
      * destruct H as [<-|H].
        -- destruct (proj1 Hn eq_refl) as (st & H1 & H2 & H3).
           exists node, st. auto.
        -- apply IH in H as (n & st & H0 & H1). exists n, st. auto.
      * apply IH in H as (n & st & H0 & H1). exists n, st. auto.
    + intros (n & st & [<-|H0] & H1 & H2 & H3).
      * rewrite (proj2 Hn (ex_intro _ st (conj H1 (conj H2 H3)))). now left.
      * assert (In net (onlineNetworks nodes)) as H
          by (apply IH; exists n, st; auto).
        destruct (onlineNetwork node); [now right|assumption].
Qed.

(** A record that is not online, or has no statistics, adds nothing. *)
Lemma getTotalNetworkStats_skip (before after : list NodeData) (node : NodeData) :
  onlineNetwork node = None ->
  getTotalNetworkStats (before ++ node :: after)
  = getTotalNetworkStats (before ++ after).
Proof.
  intros H. unfold getTotalNetworkStats.
  rewrite !fold_addNode, !onlineNetworks_app. simpl. now rewrite H.
Qed.

(** [x || 0] is [x] itself unless [x] is NaN (the zeros compare equal). *)
Lemma orZero_same (x : float) : is_nan x = false -> (orZero x =? x) = true.
Proof.
  unfold orZero, is_nan. intros H. rewrite H. simpl.
  destruct (x =? x) eqn:Exx; [|discriminate].
  destruct (x =? 0) eqn:E; [|assumption].
  rewrite FloatAxioms.eqb_spec in *. unfold SFeqb in *.
  change (Prim2SF 0) with (S754_zero false) in *.
  destruct (Prim2SF x) as [s|s| |s m e]; simpl in *; try discriminate;
    try reflexivity; now destruct s.
Qed.

(** C7: each of the four totals is the sum, from 0, of that counter over
    the records that are online and carry network statistics, and over no
    other record (a counter that is NaN counts as 0, any other as
    itself); a record without statistics changes no total; the
    empty fleet has four totals of 0; and with [a] and [b] online and
    reporting and [c] without statistics the totals are those of [a] and
    [b]. *)
Theorem network_totals :
  (forall nodes : list NodeData,
      getTotalNetworkStats nodes =
        {| totalUp := sumOf Node.up (onlineNetworks nodes);
           totalDown := sumOf Node.down (onlineNetworks nodes);
           totalUpTraffic := sumOf Node.totalUp (onlineNetworks nodes);
           totalDownTraffic := sumOf Node.totalDown (onlineNetworks nodes) |}) /\
  (forall (nodes : list NodeData) (net : Network),
      In net (onlineNetworks nodes) <->
      exists node st,
        In node nodes /\ status node = Some online /\
        stats node = Some st /\ network st = Some net) /\
  (forall (before after : list NodeData) (node : NodeData),
      stats node = None ->
      getTotalNetworkStats (before ++ node :: after)
      = getTotalNetworkStats (before ++ after)) /\
  (forall x : float, is_nan x = false -> (orZero x =? x) = true) /\
  getTotalNetworkStats [] = noTraffic /\
  (forall (na nb : Network) (st : option NodeStatus),
      getTotalNetworkStats
        [sampleNode "a" (Some online) (Some (statsWithNetwork na));
         sampleNode "b" (Some online) (Some (statsWithNetwork nb));
         sampleNode "c" st None]
      = getTotalNetworkStats
          [sampleNode "a" (Some online) (Some (statsWithNetwork na));
           sampleNode "b" (Some online) (Some (statsWithNetwork nb))]
      /\ onlineNetworks
           [sampleNode "a" (Some online) (Some (statsWithNetwork na));
            sampleNode "b" (Some online) (Some (statsWithNetwork nb));
            sampleNode "c" st None]
         = [na; nb]).
Proof.
  split; [|split; [|split; [|split; [|split]]]].
  - intros nodes. unfold getTotalNetworkStats.
    now rewrite fold_addNode, fold_addNetwork.
  - apply In_onlineNetworks.
  - intros before after node H. apply getTotalNetworkStats_skip.
    unfold onlineNetwork. rewrite H. now destruct (status node) as [[|]|].
  - apply orZero_same.
  - reflexivity.
  - intros na nb st. split.
    + apply (getTotalNetworkStats_skip
               [sampleNode "a" (Some online) (Some (statsWithNetwork na));
                sampleNode "b" (Some online) (Some (statsWithNetwork nb))]
               [] (sampleNode "c" st None)).
      now destruct st as [[|]|].
    + now destruct st as [[|]|].
Qed.

Lemma network_totals_witness :
  getTotalNetworkStats
    [sampleNode "a" (Some online) None;
     sampleNode "b" (Some online)
       (Some (statsWithNetwork
                {| Node.up := 100; Node.down := 200;
                   Node.totalUp := 3000; Node.totalDown := 4000 |}))]
  = getTotalNetworkStats
      [sampleNode "b" (Some online)
         (Some (statsWithNetwork
                  {| Node.up := 100; Node.down := 200;
                     Node.totalUp := 3000; Node.totalDown := 4000 |}))].
Proof.
  destruct network_totals as (_ & _ & T & _).
  apply (T [] _ (sampleNode "a" (Some online) None)). reflexivity.
Defined.

(** ** Records without a status *)

(** C10: a record whose [status] is absent is not online: the card shows
    it as it shows an offline record (the offline badge, the red border)
    and it enters the fleet totals no more than an offline record does;
    a record is online exactly when its [status] is online. *)
Theorem absent_status_is_offline (node : NodeData) :
  status node = None ->
  isOnline node = false /\
  isOnline (withStatus (Some offline) node) = false /\
  statusBadge node = [0x79BB%N; 0x7EBF%N] /\
  statusBadge node = statusBadge (withStatus (Some offline) node) /\
  borderClass node = str "border-l-red-500" /\
  borderClass node = borderClass (withStatus (Some offline) node) /\
  (forall before after : list NodeData,
      getTotalNetworkStats (before ++ node :: after)
      = getTotalNetworkStats (before ++ after) /\
      getTotalNetworkStats (before ++ withStatus (Some offline) node :: after)
      = getTotalNetworkStats (before ++ after)) /\
  (forall n : NodeData, isOnline n = true <-> status n = Some online).
Proof.
  intros H. unfold statusBadge, borderClass, isOnline. rewrite H. simpl.
  repeat split.
  - apply getTotalNetworkStats_skip. unfold onlineNetwork. now rewrite H.
  - now apply getTotalNetworkStats_skip.
  - destruct (status n) as [[|]|]; congruence.
  - now intros ->.
Qed.

Lemma absent_status_is_offline_witness :
  status (sampleNode "n" None
            (Some (statsWithNetwork
                     {| Node.up := 1; Node.down := 2;
                        Node.totalUp := 3; Node.totalDown := 4 |}))) = None /\
  getTotalNetworkStats
    [sampleNode "n" None
       (Some (statsWithNetwork
                {| Node.up := 1; Node.down := 2;
                   Node.totalUp := 3; Node.totalDown := 4 |}))]
  = noTraffic.
Proof.
  split; [reflexivity|].
  destruct (absent_status_is_offline
              (sampleNode "n" None
                 (Some (statsWithNetwork
                          {| Node.up := 1; Node.down := 2;
                             Node.totalUp := 3; Node.totalDown := 4 |})))
              eq_refl)
    as (_ & _ & _ & _ & _ & _ & T & _).
  exact (proj1 (T [] [])).
Defined.
End Totals.

(** ** The rendering of doubles, on values *)

Section Rendering.
Local Open Scope float_scope.

Example toString_tenth : Double.toString (1 / 10) = str "0.1".
Proof. vm_compute. reflexivity. Qed.

Example toString_sum : Double.toString (1 / 10 + 2 / 10) = str "0.30000000000000004".
Proof. vm_compute. reflexivity. Qed.

Example toString_large : Double.toString 1e21 = str "1e+21".
Proof. vm_compute. reflexivity. Qed.

Example toString_power : Double.toString 0x1p+70 = str "1.1805916207174113e+21".
Proof. vm_compute. reflexivity. Qed.

Example toString_least : Double.toString 0x1p-1074 = str "5e-324".
Proof. vm_compute. reflexivity. Qed.

Example toString_small : Double.toString (1 / 10000000) = str "1e-7".
Proof. vm_compute. reflexivity. Qed.

Example toFixed_tie : Double.toFixed 0.25 1 = str "0.3".
Proof. vm_compute. reflexivity. Qed.

Example toFixed_below_tie : Double.toFixed (35 / 100) 1 = str "0.3".
Proof. vm_compute. reflexivity. Qed.

Example toFixed_negative_zero : Double.toFixed (-0) 1 = str "0.0".
Proof. vm_compute. reflexivity. Qed.

Example ramPercent_third :
  ramPercent (sampleStats 0 1 3 0 1) = str "33.3%".
Proof. vm_compute. reflexivity. Qed.
End Rendering.

(** * Further properties *)

(** ** Keys and values *)

Section Entries.
Import UseTheme ThemeEffect.

Lemma jsstring_eqb_refl (s : jsstring) : jsstring_eqb s s = true.
Proof. now apply jsstring_eqb_eq. Qed.

Lemma jsstring_eqb_neq (s t : jsstring) : s <> t -> jsstring_eqb s t = false.
Proof.
  intros H. destruct (jsstring_eqb s t) eqn:E; [|reflexivity].
  apply jsstring_eqb_eq in E. contradiction.
Qed.

Lemma getItem_assign_same (entries : Storage) (key value : jsstring) :
  getItem (assign entries key value) key = Some value.
Proof.
  induction entries as [|[k v] rest IH]; simpl.
  - now rewrite jsstring_eqb_refl.
  - destruct (jsstring_eqb k key) eqn:E; simpl; now rewrite E.
Qed.

Lemma getItem_assign_other (entries : Storage) (key value other : jsstring) :
  other <> key -> getItem (assign entries key value) other = getItem entries other.
Proof.
  intros H. induction entries as [|[k v] rest IH]; simpl.
  - rewrite jsstring_eqb_neq; [reflexivity|congruence].
  - destruct (jsstring_eqb k key) eqn:E; simpl.
    + apply jsstring_eqb_eq in E. subst k.
      rewrite jsstring_eqb_neq; [reflexivity|congruence].
    + now rewrite IH.
Qed.

Lemma getItem_unassign_same (entries : Storage) (key : jsstring) :
  getItem (unassign entries key) key = None.
Proof.
  induction entries as [|[k v] rest IH]; simpl; [reflexivity|].
  destruct (jsstring_eqb k key) eqn:E; simpl; [assumption|]. now rewrite E.
Qed.

Lemma getItem_unassign_other (entries : Storage) (key other : jsstring) :
  other <> key -> getItem (unassign entries key) other = getItem entries other.
Proof.
  intros H. induction entries as [|[k v] rest IH]; simpl; [reflexivity|].
  destruct (jsstring_eqb k key) eqn:E; simpl.
  - apply jsstring_eqb_eq in E. subst k.
    rewrite jsstring_eqb_neq; [assumption|congruence].
  - now rewrite IH.
Qed.

Lemma assign_unassign (entries : Storage) (key value : jsstring) :
  assign (unassign entries key) key value = unassign entries key ++ [(key, value)].
Proof.
  induction entries as [|[k v] rest IH]; simpl; [reflexivity|].
  destruct (jsstring_eqb k key) eqn:E; simpl; [assumption|].
  now rewrite E, IH.
Qed.

Lemma unassign_app (l1 l2 : Storage) (key : jsstring) :
  unassign (l1 ++ l2) key = unassign l1 key ++ unassign l2 key.
Proof. apply filter_app. Qed.

Lemma unassign_unassign (entries : Storage) (key : jsstring) :
  unassign (unassign entries key) key = unassign entries key.
Proof.
  induction entries as [|[k v] rest IH]; simpl; [reflexivity|].
  destruct (jsstring_eqb k key) eqn:E; simpl; [assumption|].
  now rewrite E, IH.
Qed.

Lemma assign_assign (entries : Storage) (key v1 v2 : jsstring) :
  assign (assign entries key v1) key v2 = assign entries key v2.
Proof.
  induction entries as [|[k v] rest IH]; simpl.
  - now rewrite jsstring_eqb_refl.
  - destruct (jsstring_eqb k key) eqn:E; simpl; rewrite E; [reflexivity|].
    now rewrite IH.
Qed.

Lemma without_token_twice (token : jsstring) (tokens : list jsstring) :
  filter (fun t => negb (jsstring_eqb t token))
    (filter (fun t => negb (jsstring_eqb t token)) tokens)
  = filter (fun t => negb (jsstring_eqb t token)) tokens.
Proof.
  induction tokens as [|t tokens IH]; simpl; [reflexivity|].
  destruct (jsstring_eqb t token) eqn:E; simpl; [assumption|].
  now rewrite E, IH.
Qed.

Lemma without_token_absent (token : jsstring) (tokens : list jsstring) :
  existsb (jsstring_eqb token)
    (filter (fun t => negb (jsstring_eqb t token)) tokens) = false.
Proof.
  induction tokens as [|t tokens IH]; simpl; [reflexivity|].
  destruct (jsstring_eqb t token) eqn:E; simpl; [assumption|].
  rewrite IH, orb_false_r.
  destruct (jsstring_eqb token t) eqn:E'; [|reflexivity].
  apply jsstring_eqb_eq in E'. subst t. now rewrite jsstring_eqb_refl in E.
Qed.
End Entries.

(** ** Applying a theme *)

Section Applying.
Import UseTheme ThemeEffect.

(** The three shapes of the root after the effect. *)
Lemma applyTheme_root (theme : jsstring) (page : Page) :
  root (applyTheme theme page) =
    let attrs := unassign (attributes (root page)) (str "data-theme") in
    let tokens :=
      filter (fun t => negb (jsstring_eqb t (str "dark"))) (classList (root page)) in
    if jsstring_eqb theme (str "clean")
    then {| attributes := attrs; classList := tokens |}
    else if jsstring_eqb theme (str "night")
    then {| attributes := attrs; classList := tokens ++ [str "dark"] |}
    else {| attributes := attrs ++ [(str "data-theme", theme)]; classList := tokens |}.
Proof.
  unfold applyTheme. cbv zeta. cbn [root].
  destruct (jsstring_eqb theme (str "clean")); [reflexivity|].
  destruct (jsstring_eqb theme (str "night")).
  - unfold classList_add, classList_remove, removeAttribute.
    cbn [attributes classList].
    now rewrite without_token_absent.
  - unfold setAttribute, classList_remove, removeAttribute.
    cbn [attributes classList].
    now rewrite assign_unassign.
Qed.

Lemma applyTheme_twice (first second : jsstring) (page : Page) :
  applyTheme second (applyTheme first page) = applyTheme second page.
Proof.
  assert (root (applyTheme second (applyTheme first page))
          = root (applyTheme second page)) as Hroot.
  { rewrite (applyTheme_root second), (applyTheme_root second page).
    rewrite (applyTheme_root first). cbv zeta.
    destruct (jsstring_eqb first (str "clean")); simpl attributes; simpl classList.
    - now rewrite unassign_unassign, without_token_twice.
    - destruct (jsstring_eqb first (str "night")); simpl attributes; simpl classList.
      + rewrite unassign_unassign, filter_app, without_token_twice. simpl.
        now rewrite app_nil_r.
      + rewrite unassign_app, unassign_unassign, without_token_twice. simpl.
        now rewrite app_nil_r. }
  assert (localStorage (applyTheme second (applyTheme first page))
          = localStorage (applyTheme second page)) as Hstore.
  { unfold applyTheme. simpl. unfold setItem. apply assign_assign. }
  destruct (applyTheme second (applyTheme first page)),
    (applyTheme second page). simpl in *. now subst.
Qed.

(** X1: after the effect the root carries the class "dark" exactly for the
    theme "night", and the attribute "data-theme", with the theme as its
    value, exactly for a theme that is neither "clean" nor "night".  Every
    attribute other than "data-theme" and the class attribute is as it was,
    and of the class attribute every token other than "dark" is. *)
Theorem applyTheme_marks (theme : jsstring) (page : Page) :
  (In (str "dark") (classList (root (applyTheme theme page)))
   <-> theme = str "night") /\
  attributeNamed (root (applyTheme theme page)) (str "data-theme")
  = (if jsstring_eqb theme (str "clean") || jsstring_eqb theme (str "night")
     then None else Some theme) /\
  (forall name : jsstring,
      name <> str "data-theme" -> name <> str "class" ->
      attributeNamed (root (applyTheme theme page)) name
      = attributeNamed (root page) name) /\
  (forall token : jsstring,
      token <> str "dark" ->
      (In token (classList (root (applyTheme theme page)))
       <-> In token (classList (root page)))).
Proof.
  rewrite applyTheme_root. cbv zeta. unfold attributeNamed.
  assert (forall tokens : list jsstring,
             ~ In (str "dark")
               (filter (fun t => negb (jsstring_eqb t (str "dark"))) tokens)) as Hno.
  { intros tokens H. apply filter_In in H as [_ H].
    now rewrite jsstring_eqb_refl in H. }
  assert (forall (tokens : list jsstring) (token : jsstring),
             token <> str "dark" ->
             (In token (filter (fun t => negb (jsstring_eqb t (str "dark"))) tokens)
              <-> In token tokens)) as Hkeep.
  { intros tokens token H. rewrite filter_In.
    rewrite (jsstring_eqb_neq _ _ H). simpl. tauto. }
  destruct (jsstring_eqb theme (str "clean")) eqn:Ec; simpl.
  - apply jsstring_eqb_eq in Ec. subst theme.
    split; [|split; [|split]].
    + split; [intros H; now apply Hno in H|discriminate].
    + apply getItem_unassign_same.
    + intros name H _. now apply getItem_unassign_other.
    + intros token H. now apply Hkeep.
  - destruct (jsstring_eqb theme (str "night")) eqn:En; simpl.
    + apply jsstring_eqb_eq in En. subst theme.
      split; [|split; [|split]].
      * split; [reflexivity|]. intros _. apply in_or_app. right. now left.
      * apply getItem_unassign_same.
      * intros name H _. now apply getItem_unassign_other.
      * intros token H. rewrite in_app_iff, Hkeep by assumption. simpl.
        split; [intros [H'|[H'|[]]]; [assumption|congruence]|tauto].
    + split; [|split; [|split]].
      * split; [intros H; now apply Hno in H|].
        intros ->. now rewrite jsstring_eqb_refl in En.
      * rewrite <- assign_unassign. apply getItem_assign_same.
      * intros name H _. rewrite <- assign_unassign.
        rewrite getItem_assign_other by assumption.
        now apply getItem_unassign_other.
      * intros token H. now apply Hkeep.
Qed.


Lemma applyTheme_stores (theme : jsstring) (page : Page) :
  getItem (localStorage (applyTheme theme page)) (str "komari-theme") = Some theme.
Proof. unfold applyTheme. simpl. apply getItem_assign_same. Qed.

Lemma switcher_ids :
  map fst ThemeSwitcher.themes = recognized.
Proof. reflexivity. Qed.

(** X3: a theme offered by the switcher, once applied, is the theme
    restored at the next start; a theme outside the eight (the setter takes
    any value) is stored by the effect too, but the next start ignores it
    and restores "clean". *)
Theorem theme_round_trip :
  (forall (id name : jsstring) (page : Page),
      In (id, name) ThemeSwitcher.themes ->
      restoreTheme (localStorage (applyTheme id page)) = id) /\
  (forall (theme : jsstring) (page : Page),
      (forall t : Theme, themeId t <> theme) ->
      getItem (localStorage (applyTheme theme page)) (str "komari-theme")
      = Some theme /\
      restoreTheme (localStorage (applyTheme theme page)) = str "clean").
Proof.
  split.
  - intros id name page H. unfold restoreTheme. rewrite applyTheme_stores.
    assert (In id recognized) as Hid.
    { rewrite <- switcher_ids. now apply (in_map fst) in H. }
    apply recognized_themes in Hid as [t <-]. now destruct t.
  - intros theme page H. split; [apply applyTheme_stores|].
    unfold restoreTheme. rewrite applyTheme_stores.
    destruct (truthy theme && Array_includes recognized theme) eqn:E; [|reflexivity].
    apply andb_true_iff in E as [_ E]. apply Array_includes_In in E.
    apply recognized_themes in E as [t Ht]. now destruct (H t).
Qed.

Lemma theme_round_trip_witness :
  restoreTheme
    (localStorage
       (applyTheme (str "night") {| root := {| attributes := []; classList := [] |};
                                    localStorage := [] |}))
  = str "night" /\
  restoreTheme
    (localStorage
       (applyTheme (str "solarized")
          {| root := {| attributes := []; classList := [] |};
             localStorage := [(str "komari-theme", str "night")] |}))
  = str "clean".
Proof.
  split.
  - apply (proj1 theme_round_trip (str "night") [0x591C%N; 0x665A%N]).
    simpl. tauto.
  - apply (proj2 theme_round_trip (str "solarized")).
    intros t; destruct t; discriminate.
Defined.

Lemma restoreTheme_recognized (storage : Storage) :
  In (restoreTheme storage) recognized.
Proof.
  unfold restoreTheme.
  destruct (getItem storage (str "komari-theme")) as [saved|]; [|simpl; tauto].
  destruct (truthy saved && Array_includes recognized saved) eqn:E; [|simpl; tauto].
  apply andb_true_iff in E as [_ E]. now apply Array_includes_In in E.
Qed.

Lemma restoreTheme_applied (theme : jsstring) (page : Page) :
  In theme recognized ->
  restoreTheme (localStorage (applyTheme theme page)) = theme.
Proof.
  intros H. unfold restoreTheme. rewrite applyTheme_stores.
  apply recognized_themes in H as [t <-]. now destruct t.
Qed.

(** X4: [mount] settles: the theme it ends with is the one restored from
    the storage it started with, is one of the eight, and is the value the
    storage holds afterwards (an absent or unrecognized stored value is
    replaced by "clean"); mounting once more, on the page it left, changes
    nothing. *)
Theorem mount_settles (page : Page) :
  fst (mount page) = restoreTheme (localStorage page) /\
  In (fst (mount page)) recognized /\
  getItem (localStorage (snd (mount page))) (str "komari-theme")
  = Some (fst (mount page)) /\
  snd (mount page) = applyTheme (fst (mount page)) page /\
  mount (snd (mount page)) = mount page.
Proof.
  assert (forall p : Page,
             mount p = (restoreTheme (localStorage p),
                        applyTheme (restoreTheme (localStorage p)) p)) as Hm.
  { intros p. unfold mount. cbv zeta.
    destruct (jsstring_eqb (restoreTheme (localStorage p)) initialTheme) eqn:E.
    - apply jsstring_eqb_eq in E. now rewrite E.
    - now rewrite applyTheme_twice. }
  rewrite !Hm. simpl fst. simpl snd.
  split; [reflexivity|]. split; [apply restoreTheme_recognized|].
  split; [apply applyTheme_stores|]. split; [reflexivity|].
  rewrite restoreTheme_applied by apply restoreTheme_recognized.
  now rewrite applyTheme_twice.
Qed.
End Applying.

(** ** Switching themes *)

Section Switching.
Import UseTheme ThemeEffect.






End Switching.

(** ** Tags *)

Section Tags.
Import UseTheme NodeCardView.

Lemma split_not_nil (sep : codeUnit -> bool) (s : jsstring) : split sep s <> [].
Proof.
  induction s as [|c s IH]; simpl; [discriminate|].
  destruct (sep c); [discriminate|].
  destruct (split sep s); [contradiction|discriminate].
Qed.

(** No piece holds a separator. *)
Lemma split_pieces (sep : codeUnit -> bool) (s : jsstring) :
  Forall (Forall (fun c => sep c = false)) (split sep s).
Proof.
  induction s as [|c s IH]; simpl.
  - repeat constructor.
  - destruct (sep c) eqn:E.
    + constructor; [constructor|assumption].
    + destruct (split sep s) as [|piece pieces]; [repeat constructor; assumption|].
      inversion IH; subst. constructor; [constructor|]; assumption.
Qed.

Lemma split_piece (sep : codeUnit -> bool) (piece : jsstring) :
  Forall (fun c => sep c = false) piece -> split sep piece = [piece].
Proof.
  induction 1 as [|c piece Hc _ IH]; simpl; [reflexivity|].
  now rewrite Hc, IH.
Qed.

Lemma split_app (sep : codeUnit -> bool) (piece rest : jsstring) (c : codeUnit) :
  Forall (fun c => sep c = false) piece -> sep c = true ->
  split sep (piece ++ c :: rest) = piece :: split sep rest.
Proof.
  intros Hp Hc. induction Hp as [|d piece Hd _ IH]; simpl.
  - now rewrite Hc.
  - now rewrite Hd, IH.
Qed.

Lemma trimStart_suffix (s : jsstring) :
  exists front, s = front ++ trimStart s /\ Forall (fun c => isWhiteSpace c = true) front.
Proof.
  induction s as [|c s (front & E & H)]; simpl.
  - exists []. now split.
  - destruct (isWhiteSpace c) eqn:Ec.
    + exists (c :: front). simpl. split; [now rewrite <- E|now constructor].
    + exists []. now split.
Qed.

Lemma trimStart_head (s : jsstring) (c : codeUnit) (rest : jsstring) :
  trimStart s = c :: rest -> isWhiteSpace c = false.
Proof.
  induction s as [|d s IH]; simpl; [discriminate|].
  destruct (isWhiteSpace d) eqn:E; [assumption|].
  intros H. injection H as -> _. assumption.
Qed.

Lemma trimStart_fixed (s : jsstring) :
  (forall c rest, s = c :: rest -> isWhiteSpace c = false) -> trimStart s = s.
Proof.
  destruct s as [|c s]; [reflexivity|]. intros H. simpl.
  now rewrite (H c s eq_refl).
Qed.

Lemma trimEnd_prefix (s : jsstring) :
  exists back, s = trimEnd s ++ back /\ Forall (fun c => isWhiteSpace c = true) back.
Proof.
  unfold trimEnd. destruct (trimStart_suffix (rev s)) as (front & E & H).
  exists (rev front). split.
  - rewrite <- rev_app_distr, <- E. now rewrite rev_involutive.
  - now apply Forall_rev.
Qed.

Lemma trimEnd_last (s : jsstring) (c : codeUnit) (front : jsstring) :
  trimEnd s = front ++ [c] -> isWhiteSpace c = false.
Proof.
  unfold trimEnd. intros H.
  apply (f_equal (@rev codeUnit)) in H.
  rewrite rev_involutive, rev_app_distr in H. simpl in H.
  exact (trimStart_head _ _ _ H).
Qed.

(** What [trim] leaves has no white space at either end, and holds only
    code units of the string. *)
Lemma trim_ends (s : jsstring) :
  (forall c rest, trim s = c :: rest -> isWhiteSpace c = false) /\
  (forall c front, trim s = front ++ [c] -> isWhiteSpace c = false) /\
  (forall c, In c (trim s) -> In c s).
Proof.
  unfold trim. split; [|split].
  - intros c rest H.
    destruct (trimEnd_prefix (trimStart s)) as (back & E & _).
    rewrite H in E. simpl in E. exact (trimStart_head _ _ _ E).
  - intros c front H. exact (trimEnd_last _ _ _ H).
  - intros c H.
    destruct (trimEnd_prefix (trimStart s)) as (back & E & _).
    destruct (trimStart_suffix s) as (front & E' & _).
    rewrite E'. apply in_or_app. right. rewrite E. apply in_or_app. now left.
Qed.

Lemma trim_clean (tag : jsstring) : cleanTag tag -> trim tag = tag.
Proof.
  intros (_ & _ & Hfirst & Hlast). unfold trim, trimEnd.
  rewrite (trimStart_fixed tag Hfirst).
  rewrite trimStart_fixed; [apply rev_involutive|].
  intros c rest H. apply (Hlast c (rev rest)).
  apply (f_equal (@rev codeUnit)) in H. rewrite rev_involutive in H. exact H.
Qed.

Lemma truthy_not_nil (s : jsstring) : truthy s = true <-> s <> [].
Proof. destruct s; simpl; split; congruence. Qed.

(** X6: every tag of [tagList] is a piece of the string between two
    separators with the white space at its ends taken off: it is not empty,
    holds no comma and no semicolon, and neither starts nor ends with white
    space.  The empty string has no tags. *)
Theorem tagList_clean (tags : jsstring) :
  Forall cleanTag (tagList tags) /\ tagList [] = [].
Proof.
  split; [|reflexivity]. unfold tagList.
  destruct (negb (truthy tags)); [constructor|].
  apply Forall_forall. intros tag H.
  apply filter_In in H as [H Hne]. apply in_map_iff in H as (piece & <- & H).
  pose proof (split_pieces isSeparator tags) as Hp.
  rewrite Forall_forall in Hp. specialize (Hp piece H).
  destruct (trim_ends piece) as (H1 & H2 & H3).
  split; [now apply truthy_not_nil|]. split; [|split; assumption].
  apply Forall_forall. intros c Hc. rewrite Forall_forall in Hp. auto.
Qed.

Lemma split_joinComma (ts : list jsstring) :
  ts <> [] -> Forall cleanTag ts -> split isSeparator (joinComma ts) = ts.
Proof.
  intros Hne H. induction H as [|t ts (_ & Ht & _) Hts IH]; [contradiction|].
  destruct ts as [|t' ts].
  - simpl. now apply split_piece.
  - change (joinComma (t :: t' :: ts)) with (t ++ 44%N :: joinComma (t' :: ts)).
    rewrite split_app by (assumption || reflexivity).
    rewrite IH by discriminate. reflexivity.
Qed.

Lemma joinComma_truthy (ts : list jsstring) :
  ts <> [] -> Forall cleanTag ts -> truthy (joinComma ts) = true.
Proof.
  intros Hne H. destruct H as [|t ts (Ht & _) _]; [contradiction|].
  apply truthy_not_nil. destruct ts as [|t' ts]; simpl; [assumption|].
  destruct t; [contradiction|discriminate].
Qed.

(** X7: tags that are not empty, hold no separator and have no white space
    at their ends come back from [tagList] as they are, in their order,
    when they are written one after the other with commas between. *)
Theorem tagList_of_joined (ts : list jsstring) :
  Forall cleanTag ts -> tagList (joinComma ts) = ts.
Proof.
  intros H. destruct ts as [|t ts]; [reflexivity|].
  unfold tagList. rewrite joinComma_truthy by (discriminate || assumption).
  simpl negb. cbv iota. rewrite split_joinComma by (discriminate || assumption).
  assert (map trim (t :: ts) = t :: ts) as ->.
  { clear -H. induction H as [|x xs Hx _ IH]; [reflexivity|].
    simpl. now rewrite (trim_clean x Hx), IH. }
  clear -H. induction H as [|x xs (Hx & _) _ IH]; [reflexivity|].
  simpl. rewrite IH. now rewrite (proj2 (truthy_not_nil x) Hx).
Qed.

Lemma tagList_of_joined_witness :
  Forall cleanTag [str "hk"; str "bgp transit"] /\
  tagList (str "hk,bgp transit") = [str "hk"; str "bgp transit"].
Proof.
  assert (Forall cleanTag [str "hk"; str "bgp transit"]) as H.
  { repeat constructor; try discriminate;
      intros c more E;
      ((destruct more as [|? more]; [|do 12 (try destruct more as [|? more])];
        try discriminate E; injection E; intros; subst; reflexivity)
       || (injection E; intros; subst; reflexivity)). }
  split; [exact H|]. exact (tagList_of_joined _ H).
Defined.

(** X8: the card shows no tag badges when there is no tag; else it shows
    the first two tags, as they are, and, when there are more, one badge
    more with a plus sign and the number of the tags it does not show. *)
Theorem tagBadges_count (tags : jsstring) :
  (tagBadges (tagList tags) = None <-> tagList tags = []) /\
  (forall shown more,
      tagBadges (tagList tags) = Some (shown, more) ->
      shown = firstn 2 (tagList tags) /\
      tagList tags = shown ++ skipn 2 (tagList tags) /\
      more =
        (if (length (tagList tags) <=? 2)%nat then None
         else Some (str "+"
                    ++ decimal (Z.of_nat (length (skipn 2 (tagList tags))))))).
Proof.
  destruct (tagList_clean tags) as [Hclean _].
  unfold tagBadges. split.
  - destruct (tagList tags); simpl; split; congruence.
  - intros shown more H.
    destruct (0 <? length (tagList tags))%nat; [|discriminate].
    remember (map trim (firstn 2 (tagList tags))) as a eqn:Ea.
    remember (if (2 <? length (tagList tags))%nat
              then Some (str "+" ++ decimal (Z.of_nat (length (tagList tags)) - 2))
              else None) as b eqn:Eb.
    injection H as H1 H2. subst shown more. subst a b.
    assert (map trim (firstn 2 (tagList tags)) = firstn 2 (tagList tags)) as ->.
    { assert (Forall cleanTag (firstn 2 (tagList tags))) as Hc.
      { rewrite <- (firstn_skipn 2 (tagList tags)) in Hclean.
        apply Forall_app in Hclean. apply Hclean. }
      induction Hc as [|x xs Hx _ IH]; [reflexivity|].
      simpl. now rewrite (trim_clean x Hx), IH. }
    split; [reflexivity|]. split; [now rewrite firstn_skipn|].
    rewrite length_skipn.
    destruct (Nat.ltb_spec 2 (length (tagList tags)));
      destruct (Nat.leb_spec (length (tagList tags)) 2); try lia; [|reflexivity].
    do 3 f_equal. lia.
Qed.
End Tags.

(** ** The formatters on other inputs *)

Section Digits.

Lemma str_cons (c : ascii) (s : string) : str (String c s) = N_of_ascii c :: str s.
Proof. reflexivity. Qed.

Lemma digitsValue_cons (c : codeUnit) (ds : jsstring) (acc : Z) :
  digitsValue (c :: ds) acc = digitsValue ds (10 * acc + (Z.of_N c - 48)).
Proof. reflexivity. Qed.

Lemma digitsValue_app (a b : jsstring) (acc : Z) :
  digitsValue (a ++ b) acc = digitsValue b (digitsValue a acc).
Proof.
  revert acc. induction a as [|c a IH]; intros acc; [reflexivity|].
  cbn [app]. rewrite !digitsValue_cons. apply IH.
Qed.

Lemma digitValue_digit (c : codeUnit) :
  isDigit c = true -> digitValue c = Some (Z.of_N c - 48).
Proof. unfold isDigit, digitValue. now intros ->. Qed.

Lemma digitValue_other (c : codeUnit) : isDigit c = false -> digitValue c = None.
Proof. unfold isDigit, digitValue. now intros ->. Qed.

(** [readDigits] reads a run of digits to its end. *)
Lemma readDigits_digits (ds rest : jsstring) (acc : Z) (count : nat) :
  forallb isDigit ds = true ->
  match rest with [] => True | c :: _ => isDigit c = false end ->
  readDigits (ds ++ rest) acc count =
    (digitsValue ds acc, (count + length ds)%nat, rest).
Proof.
  intros Hd Hr. revert acc count.
  induction ds as [|c ds IH]; intros acc count.
  - cbn [app digitsValue length]. rewrite Nat.add_0_r.
    destruct rest as [|c rest]; [reflexivity|].
    cbn [readDigits]. now rewrite (digitValue_other c Hr).
  - cbn [forallb] in Hd. apply andb_prop in Hd. destruct Hd as [Hc Hd].
    cbn [app readDigits]. rewrite (digitValue_digit c Hc).
    rewrite (IH Hd). rewrite digitsValue_cons. cbn [length].
    now rewrite Nat.add_succ_r.
Qed.

Ltac digit_code :=
  match goal with
  | |- context [N_of_ascii ?a] =>
      let v := eval vm_compute in (N_of_ascii a) in
      change (N_of_ascii a) with v
  end.

Lemma uint_digits (d : Decimal.uint) :
  forallb isDigit (str (NilEmpty.string_of_uint d)) = true.
Proof.
  induction d; cbn [NilEmpty.string_of_uint];
    [reflexivity | rewrite str_cons; cbn [forallb]; rewrite IHd; reflexivity ..].
Qed.

Lemma uint_value_from (d : Decimal.uint) (acc : positive) :
  digitsValue (str (NilEmpty.string_of_uint d)) (Z.pos acc) =
    Z.pos (Pos.of_uint_acc d acc).
Proof.
  revert acc.
  induction d; intros acc; cbn [NilEmpty.string_of_uint Pos.of_uint_acc];
    [reflexivity
    | rewrite str_cons, digitsValue_cons, <- IHd; f_equal; digit_code; lia ..].
Qed.

Lemma uint_value (d : Decimal.uint) :
  digitsValue (str (NilEmpty.string_of_uint d)) 0 = Z.of_N (Pos.of_uint d).
Proof.
  induction d; cbn [NilEmpty.string_of_uint Pos.of_uint];
    [reflexivity
    | rewrite str_cons, digitsValue_cons; digit_code; exact IHd
    | rewrite str_cons, digitsValue_cons; digit_code;
      cbn [Z.of_N]; rewrite <- uint_value_from; reflexivity ..].
Qed.

(** The decimal digits of a whole number spell it. *)
Lemma decimal_digits (n : Z) :
  0 <= n ->
  forallb isDigit (decimal n) = true /\
  digitsValue (decimal n) 0 = n /\
  (0 < length (decimal n))%nat.
Proof.
  intros H. destruct n as [|p|p]; [now vm_compute| |lia].
  unfold decimal. cbn [Z.to_int NilZero.string_of_int].
  pose proof (Unsigned.to_uint_nonnil p) as Hn.
  pose proof (DecimalPos.Unsigned.of_to p) as Hv.
  assert (NilZero.string_of_uint (Pos.to_uint p) =
          NilEmpty.string_of_uint (Pos.to_uint p)) as ->
    by (destruct (Pos.to_uint p); [congruence|reflexivity ..]).
  split; [apply uint_digits|]. split.
  - now rewrite uint_value, Hv.
  - destruct (Pos.to_uint p); [congruence|cbn; lia ..].
Qed.

Lemma zeros_digits (k : nat) :
  forallb isDigit (zeros k) = true /\ digitsValue (zeros k) 0 = 0.
Proof.
  unfold zeros. induction k as [|k [IH1 IH2]]; [now split|]. split.
  - cbn [repeat forallb]. now rewrite IH1.
  - cbn [repeat]. rewrite digitsValue_cons. exact IH2.
Qed.

(** A string that starts with a digit has no sign for [parseFloat] to
    take. *)
Lemma parseFloat_unsigned (c : codeUnit) (s : jsstring) :
  isDigit c = true ->
  parseFloat (c :: s) =
    let '(whole, nw, s2) := readDigits (c :: s) 0 0 in
    let '(all, n, _) :=
      match s2 with
      | 46%N :: r => readDigits r whole nw
      | _ => (whole, nw, s2)
      end in
    if (n =? 0)%nat then NaN
    else Val (inject_Z all / inject_Z (10 ^ Z.of_nat (n - nw)))%Q.
Proof.
  intros H. unfold parseFloat.
  destruct c as [|p]; [discriminate H|].
  do 6 (try (destruct p as [p|p|]; try reflexivity)).
  discriminate H.
Qed.

Lemma power_of_ten_positive (l : nat) : (0 < inject_Z (10 ^ Z.of_nat l))%Q.
Proof.
  change 0%Q with (inject_Z 0). rewrite <- Zlt_Qlt.
  apply Z.pow_pos_nonneg; lia.
Qed.

Lemma power_of_ten_succ (l : nat) :
  (inject_Z (10 ^ Z.of_nat (S l)) == (10 # 1) * inject_Z (10 ^ Z.of_nat l))%Q.
Proof.
  rewrite Nat2Z.inj_succ, Z.pow_succ_r by lia.
  now rewrite inject_Z_mult.
Qed.

(** [parseFloat] of the text of [toFixed] is the number it spells. *)
Lemma parseFloat_fixedOf (n : Z) (f : nat) :
  0 <= n ->
  parseFloat (fixedOf n (S f)) =
    Val (inject_Z n / inject_Z (10 ^ Z.of_nat (S f))).
Proof.
  intros Hn. unfold fixedOf. cbv zeta.
  destruct (decimal_digits n Hn) as (Hd & Hv & Hl).
  set (m := zeros (S (S f) - length (decimal n)) ++ decimal n).
  assert (forallb isDigit m = true) as Hm.
  { unfold m. rewrite forallb_app, Hd.
    now rewrite (proj1 (zeros_digits _)). }
  assert (digitsValue m 0 = n) as Hmv.
  { unfold m. rewrite digitsValue_app.
    now rewrite (proj2 (zeros_digits _)). }
  assert (S (S f) <= length m)%nat as Hml.
  { unfold m, zeros. rewrite length_app, repeat_length. lia. }
  set (k := (length m - S f)%nat).
  assert (length (firstn k m) = k) as HA by (rewrite length_firstn; lia).
  assert (length (skipn k m) = S f) as HB by (rewrite length_skipn; lia).
  pose proof (firstn_skipn k m) as HAB.
  rewrite <- HAB in Hm, Hmv. rewrite forallb_app in Hm.
  apply andb_prop in Hm. destruct Hm as [HdA HdB].
  rewrite digitsValue_app in Hmv.
  destruct (firstn k m) as [|a A] eqn:EA;
    [cbn [length] in HA; unfold k in HA; lia|].
  cbn [forallb] in HdA. apply andb_prop in HdA. destruct HdA as [Ha HdA].
  cbn [app]. rewrite (parseFloat_unsigned a _ Ha).
  change (a :: A ++ str "." ++ skipn k m) with ((a :: A) ++ 46%N :: skipn k m).
  rewrite (readDigits_digits (a :: A) (46%N :: skipn k m) 0 0)
    by (first [reflexivity | cbn [forallb]; now rewrite Ha, HdA]).
  cbv beta iota zeta.
  rewrite <- (app_nil_r (skipn k m)) at 1.
  rewrite (readDigits_digits (skipn k m) [] _ _ HdB I).
  cbv beta iota zeta. rewrite Hmv, HA, HB.
  replace (0 + k + S f =? 0)%nat with false by (symmetry; apply Nat.eqb_neq; lia).
  replace (0 + k + S f - (0 + k))%nat with (S f) by lia.
  reflexivity.
Qed.

Lemma fractionDigits_zero (fuel : nat) (r : Q) :
  (r == 0)%Q -> fractionDigits fuel r = [].
Proof.
  intros H. destruct fuel; [reflexivity|]. cbn [fractionDigits].
  now rewrite (proj2 (Qeq_bool_iff r 0) H).
Qed.

(** The digits of a fraction with at most [j] decimals spell it. *)
Lemma fractionDigits_value (j : nat) :
  forall (fuel : nat) (r : Q) (k : Z),
    (j <= fuel)%nat -> (0 <= r)%Q -> (r < 1)%Q ->
    (r * inject_Z (10 ^ Z.of_nat j) == inject_Z k)%Q ->
    forallb isDigit (fractionDigits fuel r) = true /\
    forall acc,
      (inject_Z (digitsValue (fractionDigits fuel r) acc) ==
       (inject_Z acc + r)
       * inject_Z (10 ^ Z.of_nat (length (fractionDigits fuel r))))%Q.
Proof.
  induction j as [|j IH]; intros fuel r k Hf H0 H1 Hk.
  - assert (r == 0)%Q as Hr.
    { change (inject_Z (10 ^ Z.of_nat 0)) with 1%Q in Hk.
      rewrite Qmult_1_r in Hk.
      assert (inject_Z k < inject_Z 1)%Q as U by (rewrite <- Hk; exact H1).
      assert (inject_Z 0 <= inject_Z k)%Q as L by (rewrite <- Hk; exact H0).
      rewrite <- Zlt_Qlt in U. rewrite <- Zle_Qle in L.
      assert (k = 0) as -> by lia. exact Hk. }
    rewrite (fractionDigits_zero fuel r Hr). split; [reflexivity|].
    intros acc. cbn [digitsValue length].
    change (inject_Z (10 ^ Z.of_nat 0)) with 1%Q. rewrite Hr. ring.
  - destruct fuel as [|fuel]; [lia|].
    cbn [fractionDigits]. destruct (Qeq_bool r 0) eqn:E.
    + apply Qeq_bool_iff in E. split; [reflexivity|].
      intros acc. cbn [digitsValue length].
      change (inject_Z (10 ^ Z.of_nat 0)) with 1%Q. rewrite E. ring.
    + cbv zeta. set (d := Qfloor (r * 10)).
      pose proof (Qfloor_le (r * 10)) as L.
      pose proof (Qlt_floor (r * 10)) as U.
      fold d in L, U. rewrite inject_Z_plus in U.
      change (inject_Z 1) with 1%Q in U.
      change (10%Q) with (10 # 1)%Q in *.
      assert (0 <= d <= 9) as Hd.
      { split.
        - change 0 with (Qfloor (inject_Z 0)). apply Qfloor_resp_le.
          change (inject_Z 0) with 0%Q. lra.
        - assert (inject_Z d < inject_Z 10)%Q as B
            by (change (inject_Z 10) with (10 # 1)%Q; lra).
          rewrite <- Zlt_Qlt in B. lia. }
      destruct (IH fuel (r * (10 # 1) - inject_Z d)%Q (k - d * 10 ^ Z.of_nat j))
        as [Hds Hval].
      * lia.
      * lra.
      * lra.
      * rewrite power_of_ten_succ in Hk.
        unfold Zminus. rewrite inject_Z_plus, inject_Z_opp, inject_Z_mult, <- Hk.
        ring.
      * split.
        -- cbn [forallb]. rewrite Hds.
           unfold isDigit.
           replace (48 <=? 48 + Z.to_N d)%N with true
             by (symmetry; apply N.leb_le; lia).
           replace (48 + Z.to_N d <=? 57)%N with true
             by (symmetry; apply N.leb_le; lia).
           reflexivity.
        -- intros acc. rewrite digitsValue_cons. cbn [length].
           replace (Z.of_N (48 + Z.to_N d) - 48) with d by lia.
           rewrite Hval, power_of_ten_succ.
           rewrite inject_Z_plus, inject_Z_mult.
           change (inject_Z 10) with (10 # 1)%Q. ring.
Qed.

Lemma numberToString_unfold (q : Q) :
  (0 <= q)%Q ->
  numberToString (Val q) =
    decimal (Qfloor (Qabs q)) ++
    match fractionDigits 20 (Qabs q - inject_Z (Qfloor (Qabs q))) with
    | [] => []
    | c :: frac => 46%N :: c :: frac
    end.
Proof.
  intros H. unfold numberToString. cbv zeta.
  destruct (Qlt_le_dec q 0) as [L|_]; [exfalso; lra|].
  destruct (fractionDigits 20 _); reflexivity.
Qed.

Lemma printed_reads_back (fuel : nat) (a : Q) (n : Z) (f : nat) :
  (f <= fuel)%nat -> (0 <= a)%Q ->
  (a == inject_Z n / inject_Z (10 ^ Z.of_nat f))%Q ->
  exists q' : Q,
    parseFloat
      (decimal (Qfloor a) ++
       match fractionDigits fuel (a - inject_Z (Qfloor a)) with
       | [] => []
       | c :: frac => 46%N :: c :: frac
       end) = Val q' /\ (q' == a)%Q.
Proof.
  intros Hf Ha0 Hq.
  pose proof (power_of_ten_positive f) as Hp.
  set (w := Qfloor a).
  pose proof (Qfloor_le a) as Lw.
  pose proof (Qlt_floor a) as Uw.
  fold w in Lw, Uw. rewrite inject_Z_plus in Uw.
  change (inject_Z 1) with 1%Q in Uw.
  assert (0 <= w) as Hw.
  { change 0 with (Qfloor (inject_Z 0)). apply Qfloor_resp_le.
    change (inject_Z 0) with 0%Q. lra. }
  destruct (fractionDigits_value f fuel (a - inject_Z w)%Q
              (n - w * 10 ^ Z.of_nat f) Hf) as [Hds Hval].
  - lra.
  - lra.
  - unfold Zminus. rewrite inject_Z_plus, inject_Z_opp, inject_Z_mult.
    rewrite Hq. field. lra.
  - destruct (decimal_digits w Hw) as (Hd & Hv & Hl).
    destruct (decimal w) as [|c ds]; [cbn [length] in Hl; lia|].
    pose proof Hd as Hd'. cbn [forallb] in Hd.
    apply andb_prop in Hd. destruct Hd as [Hc _].
    set (whole := c :: ds) in *.
    destruct (fractionDigits fuel (a - inject_Z w)) as [|x frac].
    + assert (parseFloat (whole ++ []) = Val (inject_Z w / inject_Z (10 ^ Z.of_nat 0)))
        as ->.
      { unfold whole at 1. cbn [app]. rewrite (parseFloat_unsigned c _ Hc).
        change (readDigits _ 0 0) with (readDigits (whole ++ []) 0 0).
        rewrite (readDigits_digits whole [] 0 0 Hd' I).
        cbv beta iota zeta. rewrite Hv.
        replace (0 + length whole =? 0)%nat with false
          by (symmetry; apply Nat.eqb_neq; lia).
        now rewrite Nat.sub_diag. }
      eexists. split; [reflexivity|].
      specialize (Hval 0). cbn [digitsValue length] in Hval.
      change (inject_Z (10 ^ Z.of_nat 0)) with 1%Q in *.
      change (inject_Z 0) with 0%Q in Hval.
      field_simplify. lra.
    + set (fr := x :: frac) in *.
      assert (parseFloat (whole ++ 46%N :: fr) =
              Val (inject_Z (digitsValue fr w)
                   / inject_Z (10 ^ Z.of_nat (length fr)))) as ->.
      { clearbody fr. unfold whole at 1. cbn [app].
        rewrite (parseFloat_unsigned c _ Hc).
        change (readDigits _ 0 0) with (readDigits (whole ++ 46%N :: fr) 0 0).
        rewrite (readDigits_digits whole (46%N :: fr) 0 0 Hd') by reflexivity.
        cbv beta iota zeta.
        pose proof (readDigits_digits fr [] (digitsValue whole 0)
                      (0 + length whole) Hds I) as R.
        rewrite app_nil_r in R. rewrite R.
        cbv beta iota zeta. rewrite Hv.
        replace (0 + length whole + length fr =? 0)%nat with false
          by (symmetry; apply Nat.eqb_neq; lia).
        replace (0 + length whole + length fr - (0 + length whole))%nat
          with (length fr) by lia.
        reflexivity. }
      eexists. split; [reflexivity|].
      rewrite (Hval w).
      pose proof (power_of_ten_positive (length fr)) as Hp'.
      field. lra.
Qed.

(** The decimal [numberToString] prints for a number with at most 20
    decimals reads back as that number. *)
Lemma numberToString_reads_back (q : Q) (n : Z) (f : nat) :
  0 <= n -> (f <= 20)%nat ->
  (q == inject_Z n / inject_Z (10 ^ Z.of_nat f))%Q ->
  exists q' : Q, parseFloat (numberToString (Val q)) = Val q' /\ (q' == q)%Q.
Proof.
  intros Hn Hf Hq.
  pose proof (power_of_ten_positive f) as Hp.
  assert (0 <= q)%Q as Hq0.
  { rewrite Hq. apply Qle_shift_div_l; [exact Hp|].
    rewrite Qmult_0_l. change 0%Q with (inject_Z 0). now rewrite <- Zle_Qle. }
  assert (Qabs q == q)%Q as Ha by (now apply Qabs_pos).
  rewrite (numberToString_unfold q Hq0).
  destruct (printed_reads_back 20 (Qabs q) n f Hf) as (q' & E & Hq').
  - lra.
  - now rewrite Ha.
  - exists q'. split; [exact E|]. now rewrite Hq'.
Qed.

End Digits.

Section Formatting.

Lemma wholeNumbers_In (lo : Z) (count : nat) (n : Z) :
  lo <= n < lo + Z.of_nat count -> In n (wholeNumbers lo count).
Proof.
  intros H. unfold wholeNumbers. apply in_map_iff.
  exists (Z.to_nat (n - lo)). split; [lia|].
  apply in_seq. lia.
Qed.

(** [toFixed] of a value that is not negative is the text of the nearest
    integer to [v * 10^f]. *)
Lemma toFixed_nearest (v : Q) (f : nat) :
  (0 <= v)%Q ->
  Exact.toFixed (Val v) f =
    fixedOf (Qfloor (v * inject_Z (10 ^ Z.of_nat f) + (1 # 2))) f.
Proof.
  intros H. unfold Exact.toFixed.
  destruct (Qlt_le_dec v 0) as [L|_]; [exfalso; lra|].
  cbn [app]. unfold fixedNotation, fixedOf.
  assert (Qfloor (Qabs v * inject_Z (10 ^ Z.of_nat f) + (1 # 2)) =
          Qfloor (v * inject_Z (10 ^ Z.of_nat f) + (1 # 2))) as ->
    by (apply Qfloor_comp; now rewrite Qabs_pos).
  reflexivity.
Qed.

Lemma nearest_hundredth (v : Q) :
  (1 <= v)%Q -> (v < 1024)%Q ->
  let n := Qfloor (v * inject_Z (10 ^ Z.of_nat 2) + (1 # 2)) in
  100 <= n <= 102400 /\
  (Qabs (inject_Z n / inject_Z (10 ^ Z.of_nat 2) - v) <= 1 # 200)%Q.
Proof.
  intros Hlo Hhi n.
  change (inject_Z (10 ^ Z.of_nat 2)) with (100 # 1)%Q in *.
  pose proof (Qfloor_le (v * (100 # 1) + (1 # 2))) as L.
  pose proof (Qlt_floor (v * (100 # 1) + (1 # 2))) as U.
  fold n in L, U. rewrite inject_Z_plus in U.
  change (inject_Z 1) with 1%Q in U.
  split.
  - split.
    + change 100 with (Qfloor (inject_Z 100)). apply Qfloor_resp_le.
      change (inject_Z 100) with (100 # 1)%Q. lra.
    + assert (inject_Z n < inject_Z 102401)%Q as B
        by (change (inject_Z 102401) with (102401 # 1)%Q; lra).
      rewrite <- Zlt_Qlt in B. lia.
  - apply Qabs_Qle_condition.
    unfold Qdiv. change (/ (100 # 1))%Q with (1 # 100)%Q. split; lra.
Qed.

Lemma nearest_tenth (v : Q) :
  (1 <= v)%Q -> (v < 1024)%Q ->
  let n := Qfloor (v * inject_Z (10 ^ Z.of_nat 1) + (1 # 2)) in
  10 <= n <= 10240 /\
  (Qabs (inject_Z n / inject_Z (10 ^ Z.of_nat 1) - v) <= 1 # 20)%Q.
Proof.
  intros Hlo Hhi n.
  change (inject_Z (10 ^ Z.of_nat 1)) with (10 # 1)%Q in *.
  pose proof (Qfloor_le (v * (10 # 1) + (1 # 2))) as L.
  pose proof (Qlt_floor (v * (10 # 1) + (1 # 2))) as U.
  fold n in L, U. rewrite inject_Z_plus in U.
  change (inject_Z 1) with 1%Q in U.
  split.
  - split.
    + change 10 with (Qfloor (inject_Z 10)). apply Qfloor_resp_le.
      change (inject_Z 10) with (10 # 1)%Q. lra.
    + assert (inject_Z n < inject_Z 10241)%Q as B
        by (change (inject_Z 10241) with (10241 # 1)%Q; lra).
      rewrite <- Zlt_Qlt in B. lia.
  - apply Qabs_Qle_condition.
    unfold Qdiv. change (/ (10 # 1))%Q with (1 # 10)%Q. split; lra.
Qed.

(** What the formatters print for a scaled value: the decimal of the
    nearest multiple of [10^-f], which reads back as that multiple. *)
Lemma magnitude_reads_back (v : Q) (f : nat) :
  (0 <= v)%Q -> (S f <= 20)%nat ->
  exists q : Q,
    parseFloat (numberToString (parseFloat (Exact.toFixed (Val v) (S f)))) = Val q /\
    (q == inject_Z (Qfloor (v * inject_Z (10 ^ Z.of_nat (S f)) + (1 # 2)))
          / inject_Z (10 ^ Z.of_nat (S f)))%Q.
Proof.
  intros Hv Hf. rewrite (toFixed_nearest v (S f) Hv).
  set (n := Qfloor (v * inject_Z (10 ^ Z.of_nat (S f)) + (1 # 2))).
  assert (0 <= n) as Hn.
  { change 0 with (Qfloor (inject_Z 0)). apply Qfloor_resp_le.
    change (inject_Z 0) with 0%Q.
    pose proof (power_of_ten_positive (S f)) as Hp.
    assert (0 <= v * inject_Z (10 ^ Z.of_nat (S f)))%Q
      by (apply Qmult_le_0_compat; lra).
    lra. }
  rewrite (parseFloat_fixedOf n f Hn).
  destruct (numberToString_reads_back
              (inject_Z n / inject_Z (10 ^ Z.of_nat (S f))) n (S f) Hn Hf)
    as (q & E & Hq); [reflexivity|].
  exists q. split; assumption.
Qed.

(** X9: a byte count between 0 and 1024^4 is printed as a magnitude and a
    unit of the table: the unit is the one of the largest power of 1024
    that is not above the count, and the magnitude reads back as the
    count divided by that power, rounded to the nearest hundredth. *)
Theorem formatBytes_accuracy (bytes : Z) :
  0 < bytes < 1024 ^ 4 ->
  exists (i : nat) (unit magnitude : jsstring) (q : Q) (n : Z),
    nth_error byteUnits i = Some unit /\
    1024 ^ Z.of_nat i <= bytes < 1024 ^ (Z.of_nat i + 1) /\
    NodeCard.formatBytes bytes = magnitude ++ str " " ++ unit /\
    parseFloat magnitude = Val q /\
    (q == inject_Z n / 100)%Q /\
    (Qabs (q - inject_Z bytes / inject_Z 1024 ^ Z.of_nat i) <= 1 # 200)%Q.
Proof.
  intros [H0 H4].
  destruct (formatBytes_shape bytes H0) as (i & Hi & Hr & E).
  assert (i < 4) as Hi4 by (apply (Z.pow_lt_mono_r_iff 1024); lia).
  destruct (scaled_range bytes i Hi Hr) as [Hlo Hhi].
  set (v := (inject_Z bytes / inject_Z 1024 ^ i)%Q) in *.
  destruct (magnitude_reads_back v 1) as (q & Eq & Hq); [lra|lia|].
  destruct (nearest_hundredth v Hlo Hhi) as [_ Herr].
  destruct (nth_error byteUnits (Z.to_nat i)) as [u|] eqn:Eu;
    [|apply nth_error_None in Eu; simpl in Eu; lia].
  exists (Z.to_nat i), u. eexists. exists q. eexists.
  rewrite Z2Nat.id by lia.
  split; [exact Eu|]. split; [exact Hr|]. split; [exact E|].
  split; [exact Eq|]. split; [exact Hq|].
  fold v. now rewrite Hq.
Qed.

Lemma formatBytes_accuracy_witness :
  0 < 1536 < 1024 ^ 4 /\
  exists (i : nat) (unit magnitude : jsstring) (q : Q) (n : Z),
    nth_error byteUnits i = Some unit /\
    1024 ^ Z.of_nat i <= 1536 < 1024 ^ (Z.of_nat i + 1) /\
    NodeCard.formatBytes 1536 = magnitude ++ str " " ++ unit /\
    parseFloat magnitude = Val q /\
    (q == inject_Z n / 100)%Q /\
    (Qabs (q - inject_Z 1536 / inject_Z 1024 ^ Z.of_nat i) <= 1 # 200)%Q.
Proof. split; [lia | apply (formatBytes_accuracy 1536); lia]. Defined.

(** X10: a rate between 0 and 1024^4 bytes per second is printed as a
    magnitude and a unit of the table, the magnitude reading back as the
    rate divided by the unit's power of 1024, rounded to the nearest
    tenth. *)
Theorem formatSpeed_accuracy (rate : Z) :
  0 < rate < 1024 ^ 4 ->
  exists (i : nat) (unit magnitude : jsstring) (q : Q) (n : Z),
    nth_error rateUnits i = Some unit /\
    1024 ^ Z.of_nat i <= rate < 1024 ^ (Z.of_nat i + 1) /\
    NodeCard.formatSpeed rate = magnitude ++ str " " ++ unit /\
    parseFloat magnitude = Val q /\
    (q == inject_Z n / 10)%Q /\
    (Qabs (q - inject_Z rate / inject_Z 1024 ^ Z.of_nat i) <= 1 # 20)%Q.
Proof.
  intros [H0 H4].
  destruct (formatSpeed_shape rate H0) as (i & Hi & Hr & E).
  assert (i < 4) as Hi4 by (apply (Z.pow_lt_mono_r_iff 1024); lia).
  destruct (scaled_range rate i Hi Hr) as [Hlo Hhi].
  set (v := (inject_Z rate / inject_Z 1024 ^ i)%Q) in *.
  destruct (magnitude_reads_back v 0) as (q & Eq & Hq); [lra|lia|].
  destruct (nearest_tenth v Hlo Hhi) as [_ Herr].
  destruct (nth_error rateUnits (Z.to_nat i)) as [u|] eqn:Eu;
    [|apply nth_error_None in Eu; simpl in Eu; lia].
  exists (Z.to_nat i), u. eexists. exists q. eexists.
  rewrite Z2Nat.id by lia.
  split; [exact Eu|]. split; [exact Hr|]. split; [exact E|].
  split; [exact Eq|]. split; [exact Hq|].
  fold v. now rewrite Hq.
Qed.

Lemma formatSpeed_accuracy_witness :
  0 < 1536 < 1024 ^ 4 /\
  exists (i : nat) (unit magnitude : jsstring) (q : Q) (n : Z),
    nth_error rateUnits i = Some unit /\
    1024 ^ Z.of_nat i <= 1536 < 1024 ^ (Z.of_nat i + 1) /\
    NodeCard.formatSpeed 1536 = magnitude ++ str " " ++ unit /\
    parseFloat magnitude = Val q /\
    (q == inject_Z n / 10)%Q /\
    (Qabs (q - inject_Z 1536 / inject_Z 1024 ^ Z.of_nat i) <= 1 # 20)%Q.
Proof. split; [lia | apply (formatSpeed_accuracy 1536); lia]. Defined.

End Formatting.

Section Edges.

(** X11: a negative count has no logarithm: every formatter prints
    "NaN undefined" for it. *)
Theorem format_negative (x : Z) :
  x < 0 ->
  NodeCard.formatBytes x = str "NaN undefined" /\
  NodeCard.formatSpeed x = str "NaN undefined" /\
  App.formatBytes x = str "NaN undefined" /\
  App.formatSpeed x = str "NaN undefined".
Proof.
  intros H.
  unfold NodeCard.formatBytes, NodeCard.formatSpeed, App.formatBytes,
    App.formatSpeed, floorLogRatio.
  replace (x =? 0) with false by (symmetry; apply Z.eqb_neq; lia).
  replace (0 <? x) with false by (symmetry; apply Z.ltb_ge; lia).
  repeat split; reflexivity.
Qed.

Lemma format_negative_witness :
  -1 < 0 /\
  NodeCard.formatBytes (-1) = str "NaN undefined" /\
  NodeCard.formatSpeed (-1) = str "NaN undefined" /\
  App.formatBytes (-1) = str "NaN undefined" /\
  App.formatSpeed (-1) = str "NaN undefined".
Proof. split; [lia | apply (format_negative (-1)); lia]. Defined.

(** X12: below 1024 the count itself is printed, with the first unit and
    without decimals. *)
Theorem format_below_1024 (x : Z) :
  0 < x < 1024 ->
  NodeCard.formatBytes x = decimal x ++ str " B" /\
  NodeCard.formatSpeed x = decimal x ++ str " B/s".
Proof.
  intros H.
  assert (forallb
            (fun n =>
               jsstring_eqb (NodeCard.formatBytes n) (decimal n ++ str " B")
               && jsstring_eqb (NodeCard.formatSpeed n) (decimal n ++ str " B/s"))
            (wholeNumbers 1 1023) = true) as A by (vm_compute; reflexivity).
  rewrite forallb_forall in A.
  specialize (A x (wholeNumbers_In 1 1023 x ltac:(lia))).
  apply andb_prop in A. destruct A as [A1 A2].
  split; now apply jsstring_eqb_eq.
Qed.

Lemma format_below_1024_witness :
  0 < 1023 < 1024 /\
  NodeCard.formatBytes 1023 = decimal 1023 ++ str " B" /\
  NodeCard.formatSpeed 1023 = decimal 1023 ++ str " B/s".
Proof. split; [lia | apply (format_below_1024 1023); lia]. Defined.

(** X13: a negative uptime is printed as hours alone, between -24 and 0:
    the whole days are lost. *)
Theorem formatUptime_negative (seconds : Z) :
  seconds < 0 ->
  exists h : Z,
    -24 <= h <= 0 /\
    3600 * h <= Z.rem seconds 86400 < 3600 * (h + 1) /\
    formatUptime seconds = decimal h ++ hoursUnit /\
    formatUptime seconds = formatUptime (Z.rem seconds 86400).
Proof.
  intros H. exists (Z.rem seconds 86400 / 3600).
  pose proof (Z.rem_bound_pos_neg seconds 86400 ltac:(lia) ltac:(lia)) as B.
  pose proof (Z.div_mod (Z.rem seconds 86400) 3600 ltac:(lia)) as E.
  pose proof (Z.mod_pos_bound (Z.rem seconds 86400) 3600 ltac:(lia)) as M.
  assert (seconds / 86400 < 0) as Hd by (apply Z.div_lt_upper_bound; lia).
  assert (Z.rem seconds 86400 / 86400 <= 0) as Hd'
    by (apply Z.lt_succ_r, Z.div_lt_upper_bound; lia).
  split; [lia|]. split; [lia|].
  unfold formatUptime. cbv zeta.
  rewrite Z.rem_rem by lia.
  replace (0 <? seconds / 86400) with false by (symmetry; apply Z.ltb_ge; lia).
  replace (0 <? Z.rem seconds 86400 / 86400) with false
    by (symmetry; apply Z.ltb_ge; lia).
  split; reflexivity.
Qed.

Lemma formatUptime_negative_witness :
  -90000 < 0 /\ formatUptime (-90000) = str "-1" ++ hoursUnit.
Proof.
  split; [lia|].
  destruct (formatUptime_negative (-90000) ltac:(lia)) as (h & Hh & Hr & -> & _).
  assert (h = -1) as ->
    by (change (Z.rem (-90000) 86400) with (-3600) in Hr; lia).
  reflexivity.
Defined.

End Edges.

Section UptimeText.

(** A number printed in front of a unit is read back by [readDigits]. *)
Lemma leading_number (n : Z) (rest : jsstring) :
  0 <= n ->
  match rest with [] => True | c :: _ => isDigit c = false end ->
  readDigits (decimal n ++ rest) 0 0 = (n, length (decimal n), rest).
Proof.
  intros Hn Hr. destruct (decimal_digits n Hn) as (Hd & Hv & _).
  rewrite (readDigits_digits _ _ 0 0 Hd Hr). now rewrite Hv.
Qed.

Lemma same_leading_number (n n' : Z) (rest rest' : jsstring) :
  0 <= n -> 0 <= n' ->
  match rest with [] => True | c :: _ => isDigit c = false end ->
  match rest' with [] => True | c :: _ => isDigit c = false end ->
  decimal n ++ rest = decimal n' ++ rest' -> n = n' /\ rest = rest'.
Proof.
  intros Hn Hn' Hr Hr' E.
  pose proof (leading_number n rest Hn Hr) as L.
  rewrite E, (leading_number n' rest' Hn' Hr') in L.
  injection L as <- _ <-. now split.
Qed.

(** The text of [d] days and [h] hours, as [formatUptime] prints it. *)
Lemma uptime_text_injective (d h d' h' : Z) :
  0 <= d -> 0 <= h -> 0 <= d' -> 0 <= h' ->
  (if d =? 0 then decimal h ++ hoursUnit
   else if h =? 0 then decimal d ++ daysUnit
   else decimal d ++ daysUnit ++ decimal h ++ hoursUnit) =
  (if d' =? 0 then decimal h' ++ hoursUnit
   else if h' =? 0 then decimal d' ++ daysUnit
   else decimal d' ++ daysUnit ++ decimal h' ++ hoursUnit) ->
  d = d' /\ h = h'.
Proof.
  intros Hd Hh Hd' Hh' E.
  destruct (Z.eqb_spec d 0) as [->|D]; destruct (Z.eqb_spec d' 0) as [->|D'].
  - apply same_leading_number in E as [-> _]; try reflexivity; try assumption.
    now split.
  - exfalso. destruct (h' =? 0).
    + apply same_leading_number in E as [_ E];
        try reflexivity; try assumption. discriminate E.
    + apply same_leading_number in E as [_ E];
        try reflexivity; try assumption. discriminate E.
  - exfalso. destruct (h =? 0).
    + apply same_leading_number in E as [_ E];
        try reflexivity; try assumption. discriminate E.
    + apply same_leading_number in E as [_ E];
        try reflexivity; try assumption. discriminate E.
  - destruct (Z.eqb_spec h 0) as [->|H0]; destruct (Z.eqb_spec h' 0) as [->|H0'].
    + apply same_leading_number in E as [-> _];
        try reflexivity; try assumption. now split.
    + exfalso. apply same_leading_number in E as [_ E];
        try reflexivity; try assumption.
      unfold daysUnit in E. cbn [app] in E. injection E as E.
      symmetry in E. apply app_eq_nil in E as [_ E]. discriminate E.
    + exfalso. apply same_leading_number in E as [_ E];
        try reflexivity; try assumption.
      unfold daysUnit in E. cbn [app] in E. injection E as E.
      apply app_eq_nil in E as [_ E]. discriminate E.
    + apply same_leading_number in E as [-> E];
        try reflexivity; try assumption.
      unfold daysUnit in E. cbn [app] in E. injection E as E.
      apply same_leading_number in E as [-> _];
        try reflexivity; try assumption. now split.
Qed.

(** X14: two uptimes are printed alike exactly when they have the same
    number of whole hours: the text tells the uptime to the hour, and no
    two different numbers of hours share a text. *)
Theorem formatUptime_tells_hours (s1 s2 : Z) :
  0 <= s1 -> 0 <= s2 ->
  (formatUptime s1 = formatUptime s2 <-> s1 / 3600 = s2 / 3600).
Proof.
  intros H1 H2.
  assert (forall s, 0 <= s ->
            0 <= s / 86400 /\ 0 <= s mod 86400 / 3600 < 24 /\
            0 <= s mod 86400 mod 3600 < 3600 /\
            s = 86400 * (s / 86400) + 3600 * (s mod 86400 / 3600)
                + s mod 86400 mod 3600 /\
            s / 3600 = 24 * (s / 86400) + s mod 86400 / 3600) as P.
  { intros s Hs.
    pose proof (Z.div_mod s 86400 ltac:(lia)) as E1.
    pose proof (Z.mod_pos_bound s 86400 ltac:(lia)) as B1.
    pose proof (Z.div_mod (s mod 86400) 3600 ltac:(lia)) as E2.
    pose proof (Z.mod_pos_bound (s mod 86400) 3600 ltac:(lia)) as B2.
    assert (0 <= s / 86400) by (apply Z.div_pos; lia).
    assert (0 <= s mod 86400 / 3600 < 24)
      by (split; [apply Z.div_pos; lia | apply Z.div_lt_upper_bound; lia]).
    repeat split; try lia.
    symmetry. apply (Z.div_unique _ _ _ (s mod 86400 mod 3600)); lia. }
  destruct (P s1 H1) as (Hd1 & Hh1 & Hr1 & E1 & Q1).
  destruct (P s2 H2) as (Hd2 & Hh2 & Hr2 & E2 & Q2).
  rewrite (formatUptime_parts s1 _ _ _ Hd1 Hh1 Hr1 E1).
  rewrite (formatUptime_parts s2 _ _ _ Hd2 Hh2 Hr2 E2).
  rewrite Q1, Q2. split.
  - intros E. apply uptime_text_injective in E as [-> ->]; lia.
  - intros E.
    assert (s1 / 86400 = s2 / 86400) as -> by lia.
    assert (s1 mod 86400 / 3600 = s2 mod 86400 / 3600) as -> by lia.
    reflexivity.
Qed.

Lemma formatUptime_tells_hours_witness :
  0 <= 90000 /\ 0 <= 93599 /\ formatUptime 90000 = formatUptime 93599.
Proof.
  split; [lia|]. split; [lia|].
  apply (formatUptime_tells_hours 90000 93599); [lia|lia|reflexivity].
Defined.

End UptimeText.

(** ** The region label, formatted twice *)

Section RegionTwice.

Ltac copied_letter H Ht x s' :=
  let Hx := fresh "Hx" in
  let HL := fresh "HL" in
  match type of Ht with
  | matchesAt sameUnit_i (?p :: _) ?t = true =>
      destruct t as [|x t]; [discriminate Ht|];
      rewrite matchesAt_cons in Ht; apply andb_true_iff in Ht as [Hx Ht];
      pose proof (sameUnit_i_letter p x ltac:(lia) Hx) as HL;
      apply Rewritten_copied in H as (s' & -> & _ & H);
      [|destruct HL as [-> | ->]; discriminate ..];
      clear HL
  end.

Lemma no_name_at_head (c : codeUnit) (s t : jsstring) :
  Rewritten s t ->
  matchesAt sameUnit_i (str "taiwan") (c :: s) = false ->
  matchesAt sameUnit_i (str "taiwan") (c :: t) = false.
Proof.
  intros H Hs.
  destruct (matchesAt sameUnit_i (str "taiwan") (c :: t)) eqn:Ht;
    [exfalso|reflexivity].
  change (str "taiwan") with [116; 97; 105; 119; 97; 110]%N in *.
  rewrite matchesAt_cons in Ht. apply andb_true_iff in Ht as [Hc Ht].
  copied_letter H Ht x1 s1. copied_letter H Ht x2 s2.
  copied_letter H Ht x3 s3. copied_letter H Ht x4 s4.
  copied_letter H Ht x5 s5.
  rewrite !matchesAt_cons in Hs.
  rewrite Hc, Hx, Hx0, Hx1, Hx2, Hx3 in Hs. discriminate Hs.
Qed.

(** A rewritten label has no marker left but the label "Taiwan" itself:
    rewriting it again changes nothing. *)
Lemma rewriteAll_fixed (s t : jsstring) : Rewritten s t -> rewriteAll t = t.
Proof.
  induction 1 as [|s t _ IH|m s t _ _ _ IH|s t _ IH|c s t Hc H IH].
  - reflexivity.
  - change (flagUN ++ t) with (0xD83C%N :: 0xDDFA%N :: 0xD83C%N :: 0xDDF3%N :: t).
    rewrite !rewriteAll_other by reflexivity. now rewrite IH.
  - rewrite (rewriteAll_name (str "Taiwan") t) by reflexivity. now rewrite IH.
  - rewrite (rewriteAll_name (str "Taiwan") t) by reflexivity. now rewrite IH.
  - rewrite rewriteAll_other, IH; [reflexivity|].
    unfold markerAt in *.
    apply orb_false_iff in Hc as [Hc H3]. apply orb_false_iff in Hc as [H1 H2].
    rewrite (no_flag_at_head c s t H H1), (no_name_at_head c s t H H2),
      (no_localName_at_head c s t H H3).
    reflexivity.
Qed.

(** X15: formatting a formatted region label changes nothing. *)
Theorem formatRegion_idempotent (region : jsstring) :
  formatRegion (formatRegion region) = formatRegion region.
Proof.
  assert (Rewritten region (formatRegion region)) as H.
  { rewrite formatRegion_unfold. destruct (hasMarker region) eqn:E.
    - apply Rewritten_rewriteAll.
    - now apply Rewritten_unmarked. }
  rewrite (formatRegion_unfold (formatRegion region)).
  destruct (hasMarker (formatRegion region)); [|reflexivity].
  exact (rewriteAll_fixed _ _ H).
Qed.

End RegionTwice.

(** ** The traffic totals of a card *)

Section Traffic.
Import NodeCardView.

(** The magnitude of a positive count reads as a number from 1 on. *)
Lemma formatBytes_magnitude (bytes : Z) :
  0 < bytes ->
  exists (magnitude unit : jsstring) (q : Q),
    NodeCard.formatBytes bytes = magnitude ++ 32%N :: unit /\
    parseFloat magnitude = Val q /\ (1 <= q)%Q.
Proof.
  intros H0.
  destruct (formatBytes_shape bytes H0) as (i & Hi & Hr & E).
  destruct (scaled_range bytes i Hi Hr) as [Hlo Hhi].
  set (v := (inject_Z bytes / inject_Z 1024 ^ i)%Q) in *.
  destruct (magnitude_reads_back v 1) as (q & Eq & Hq); [lra|lia|].
  destruct (nearest_hundredth v Hlo Hhi) as [[Hn _] _].
  do 2 eexists. exists q. split; [exact E|]. split; [exact Eq|].
  rewrite Hq. apply Qle_shift_div_l; [apply power_of_ten_positive|].
  rewrite Qmult_1_l, <- Zle_Qle. exact Hn.
Qed.

(** X16: the cell of a traffic total reads "N/A" exactly for a total that
    is 0 or NaN, and never "0 B": the text [formatBytes] has for 0 is not
    shown there. *)
Theorem trafficCell_of_zero (total : option Z) :
  (trafficCell total = str "N/A" <-> total = Some 0 \/ total = None) /\
  trafficCell total <> str "0 B".
Proof.
  unfold trafficCell. destruct total as [bytes|];
    [|split; [tauto|discriminate]].
  destruct (Z.eqb_spec bytes 0) as [->|Hne].
  - split; [tauto|discriminate].
  - assert (NodeCard.formatBytes bytes <> str "N/A" /\
            NodeCard.formatBytes bytes <> str "0 B") as [H1 H2].
    { destruct (Z.lt_trichotomy bytes 0) as [Hneg|[->|Hpos]]; [|lia|].
      - unfold NodeCard.formatBytes, floorLogRatio.
        replace (bytes =? 0) with false by (symmetry; apply Z.eqb_neq; lia).
        replace (0 <? bytes) with false by (symmetry; apply Z.ltb_ge; lia).
        split; discriminate.
      - destruct (formatBytes_magnitude bytes Hpos)
          as (magnitude & unit & q & -> & Eq & Hq).
        split; intros E.
        + do 4 (destruct magnitude as [|? magnitude]; try discriminate E).
        + destruct magnitude as [|c0 magnitude]; [discriminate Eq|].
          destruct magnitude as [|c1 magnitude].
          * injection E as -> _. vm_compute in Eq. injection Eq as <-.
            revert Hq. unfold Qle. cbn. lia.
          * do 3 (try destruct magnitude as [|? magnitude]; try discriminate E). }
    split; [|exact H2]. split.
    + intros E. now destruct (H1 E).
    + intros [E|E]; [injection E as E; now destruct (Hne E)|discriminate E].
Qed.

End Traffic.

(** ** The levels follow the usage *)

Section Levels.
Local Open Scope float_scope.

Ltac order_cases :=
  repeat match goal with
    | H : context [Pos.compare_cont Eq ?a ?b] |- _ =>
        change (Pos.compare_cont Eq a b) with (Pos.compare a b) in H
    | |- context [Pos.compare_cont Eq ?a ?b] =>
        change (Pos.compare_cont Eq a b) with (Pos.compare a b)
    end;
  repeat match goal with
    | H : context [Z.compare ?a ?b] |- _ => destruct (Z.compare_spec a b)
    | H : context [Pos.compare ?a ?b] |- _ => destruct (Pos.compare_spec a b)
    | |- context [Z.compare ?a ?b] => destruct (Z.compare_spec a b)
    | |- context [Pos.compare ?a ?b] => destruct (Pos.compare_spec a b)
    end;
  simpl in *; subst; try discriminate; try reflexivity; try lia.

Lemma SFleb_trans (x y z : spec_float) :
  SFleb x y = true -> SFleb y z = true -> SFleb x z = true.
Proof.
  unfold SFleb.
  destruct x as [sx|sx| |sx mx ex], y as [sy|sy| |sy my ey],
           z as [sz|sz| |sz mz ez]; simpl;
    try destruct sx; try destruct sy; try destruct sz;
    try discriminate; try reflexivity;
    intros H1 H2; order_cases.
Qed.

Lemma leb_trans (x y z : float) :
  (x <=? y) = true -> (y <=? z) = true -> (x <=? z) = true.
Proof. rewrite !leb_spec. apply SFleb_trans. Qed.

Lemma level_monotone (hi lo x y : float) :
  (x <=? y) = true ->
  le (rank (if hi <=? x then critical else if lo <=? x then warning else normal))
     (rank (if hi <=? y then critical else if lo <=? y then warning else normal)).
Proof.
  intros H.
  destruct (hi <=? x) eqn:E1.
  - rewrite (leb_trans hi x y E1 H). apply Nat.le_refl.
  - destruct (lo <=? x) eqn:E2.
    + rewrite (leb_trans lo x y E2 H).
      destruct (hi <=? y); cbn [rank]; lia.
    + cbn [rank]. lia.
Qed.

(** X17: the levels follow the usage: of two readings, the one with the
    higher usage never has the lower level, for the processor, the memory
    and the disk. *)
Theorem status_monotone (stats stats' : NodeStats) :
  ((cpu_usage stats <=? cpu_usage stats') = true ->
   le (rank (cpuStatus (Some stats))) (rank (cpuStatus (Some stats')))) /\
  ((ramUsage stats <=? ramUsage stats') = true ->
   le (rank (ramStatus (Some stats))) (rank (ramStatus (Some stats')))) /\
  ((diskUsage stats <=? diskUsage stats') = true ->
   le (rank (diskStatus (Some stats))) (rank (diskStatus (Some stats')))).
Proof.
  split; [|split]; intros H.
  - apply (level_monotone 80 60 _ _ H).
  - rewrite !ramStatus_unfold. apply (level_monotone 85 70 _ _ H).
  - rewrite !diskStatus_unfold. apply (level_monotone 90 75 _ _ H).
Qed.

Lemma status_monotone_witness :
  le (rank (cpuStatus (Some (sampleStats 50 1 4 1 4))))
     (rank (cpuStatus (Some (sampleStats 85 1 4 1 4)))) /\
  le (rank (ramStatus (Some (sampleStats 50 3 4 1 4))))
     (rank (ramStatus (Some (sampleStats 50 7 8 1 4)))).
Proof.
  split.
  - apply (proj1 (status_monotone (sampleStats 50 1 4 1 4)
                                 (sampleStats 85 1 4 1 4))).
    reflexivity.
  - apply (proj1 (proj2 (status_monotone (sampleStats 50 3 4 1 4)
                                        (sampleStats 50 7 8 1 4)))).
    reflexivity.
Defined.

End Levels.
